(** * gashapon: code issuance and prefix-indexed retrieval

    A shallow embedding of the two modules of the repository that carry
    logic:

    - [src/db/index.js], the client-side session cache and the prefix range
      query over the ["ticket-info"] collection (module [Db] below);
    - [functions/src/index.ts], the callable cloud functions that bootstrap
      an account and issue tickets (module [Functions] below).

    JavaScript strings are sequences of UTF-16 code units, numbers are
    IEEE doubles (over-approximated by the rationals plus NaN and the two
    infinities), objects live in a heap and are passed by reference. *)

From Stdlib Require Import ZArith QArith Qround Lia Lqa.
From stdpp Require Import gmap strings list fin_maps sorting.

(** ** JavaScript strings and numbers *)

Module JS.

(** A string is the list of its UTF-16 code units, each in [0, 65536). *)
Abbreviation jsstring := (list Z).

Definition unit_of_ascii (a : Ascii.ascii) : Z := Z.of_N (Ascii.N_of_ascii a).

(** The string literal [s], as a JavaScript string. *)
Definition js (s : string) : jsstring :=
  unit_of_ascii <$> String.list_ascii_of_string s.

(** [number]: a finite double is a rational; comparisons and the small
    integer additions used by the code are exact on them. *)
Inductive number :=
| NaN
| PosInf
| NegInf
| Fin (q : Q).

Definition num_of_Z (z : Z) : number := Fin (inject_Z z).

(** [a + b] on numbers. *)
Definition num_add (a b : number) : number :=
  match a, b with
  | NaN, _ | _, NaN => NaN
  | PosInf, NegInf | NegInf, PosInf => NaN
  | PosInf, _ | _, PosInf => PosInf
  | NegInf, _ | _, NegInf => NegInf
  | Fin x, Fin y => Fin (x + y)
  end.

Arguments num_of_Z : simpl never.
Arguments num_add : simpl never.

(** [a < b] on numbers: false as soon as one side is NaN. *)
Definition num_ltb (a b : number) : bool :=
  match a, b with
  | NaN, _ | _, NaN => false
  | _, NegInf => false
  | NegInf, _ => true
  | PosInf, _ => false
  | Fin _, PosInf => true
  | Fin x, Fin y => negb (Qle_bool y x)
  end.

Arguments num_ltb : simpl never.

(** [a > b] is [b < a] with the operands evaluated left to right. *)
Definition num_gtb (a b : number) : bool := num_ltb b a.

Arguments num_gtb : simpl never.

(** ToUint16: NaN and the infinities go to 0, a finite number is
    truncated towards zero and reduced modulo 2^16. *)
Definition ToUint16 (n : number) : Z :=
  match n with
  | Fin q => (if Qle_bool 0 q then Qfloor q else Qceiling q) mod 65536
  | _ => 0
  end%Z.

(** [s.length] *)
Definition str_length (s : jsstring) : Z := Z.of_nat (length s).

(** Relative index of [String.prototype.slice]: a negative index counts
    from the end, and the result is clamped to [0, len]. *)
Definition slice_index (len k : Z) : Z :=
  (if k <? 0 then Z.max (len + k) 0 else Z.min k len)%Z.

(** [s.slice(b, e)] *)
Definition slice (s : jsstring) (b e : Z) : jsstring :=
  let len := str_length s in
  let from := slice_index len b in
  let to := slice_index len e in
  take (Z.to_nat (to - from)) (drop (Z.to_nat from) s).

(** [s.charCodeAt(i)]: NaN when [i] is out of range. *)
Definition charCodeAt (s : jsstring) (i : nat) : number :=
  match s !! i with
  | Some c => num_of_Z c
  | None => NaN
  end.

(** [String.fromCharCode(n)] *)
Definition fromCharCode (n : number) : jsstring := [ToUint16 n].

(** [s.split(sep)[0]] for a one-unit separator: the units before the
    first occurrence of [sep], the whole string when there is none. *)
Fixpoint split_head (sep : Z) (s : jsstring) : jsstring :=
  match s with
  | [] => []
  | c :: s' => if (c =? sep)%Z then [] else c :: split_head sep s'
  end.

(** [s.substring(0, n)] for [0 <= n <= s.length]. *)
Definition substring0 (s : jsstring) (n : Z) : jsstring :=
  take (Z.to_nat (Z.min (Z.max n 0) (str_length s))) s.

(** Lexicographic order on code-unit sequences: [a < b]. *)
Fixpoint str_ltb (a b : jsstring) : bool :=
  match a, b with
  | _, [] => false
  | [], _ :: _ => true
  | x :: a', y :: b' => (x <? y)%Z || ((x =? y)%Z && str_ltb a' b')
  end.

(** [a <= b] *)
Definition str_leb (a b : jsstring) : bool := negb (str_ltb b a).

Definition str_lt (a b : jsstring) : Prop := str_ltb a b = true.
Definition str_le (a b : jsstring) : Prop := str_leb a b = true.

(** The string built-ins whose full definition is the Unicode case
    tables. They are an interface of the host; on ASCII input, which is
    all the hexadecimal rendering produces, upper-casing is determined. *)
Definition ascii_upper (c : Z) : Z :=
  (if (97 <=? c) && (c <=? 122) then c - 32 else c)%Z.
Definition ascii_lower (c : Z) : Z :=
  (if (65 <=? c) && (c <=? 90) then c + 32 else c)%Z.
Definition is_ascii (c : Z) : Prop := (0 <= c < 128)%Z.

Class StringBuiltins := {
  toLowerCase : jsstring -> jsstring;
  toUpperCase : jsstring -> jsstring;
  StringToNumber : jsstring -> number;
  toUpperCase_ascii :
    forall s, Forall is_ascii s -> toUpperCase s = ascii_upper <$> s;
  toLowerCase_ascii :
    forall s, Forall is_ascii s -> toLowerCase s = ascii_lower <$> s
}.

(** A primitive value, as a request property decoded from JSON carries
    it; a missing property reads as [undefined]. *)
Inductive primitive :=
| PUndefined
| PNull
| PBool (b : bool)
| PNum (n : number)
| PStr (s : jsstring).

(** ToNumber on primitives. *)
Definition ToNumber `{StringBuiltins} (p : primitive) : number :=
  match p with
  | PUndefined => NaN
  | PNull => num_of_Z 0
  | PBool b => num_of_Z (if b then 1 else 0)
  | PNum n => n
  | PStr s => StringToNumber s
  end.

End JS.
Import JS.

(** ** Values, objects and the document store *)

Module Store.

(** Heap addresses of client-side objects. *)
Abbreviation loc := positive.

(** A JavaScript value. A record object is a reference into the heap, so
    that two occurrences of one object share every later update. Arrays
    are carried by value: the modules never update an array that is
    reachable from elsewhere ([push] is applied to a fresh local array and
    [concat] builds a new one). *)
#[warnings="-register-all"]
Inductive value :=
| VUndefined
| VNull
| VBool (b : bool)
| VNum (n : number)
| VStr (s : jsstring)
| VServerTimestamp
| VRef (l : loc)
| VArr (xs : list value).

(** The fields of an object or of a stored document. *)
Abbreviation fields := (gmap string value).

(** Heap of record objects. *)
Abbreviation heap_t := (gmap loc fields).

(** A collection maps document ids to documents. *)
Abbreviation collection := (gmap jsstring fields).

(** A query [where("__name__", ">=", start), where("__name__", "<", stop)]. *)
Definition query : Type := jsstring * jsstring.

Definition key_le (a b : jsstring * fields) : Prop := str_le a.1 b.1.

#[global] Instance key_le_dec a b : Decision (key_le a b).
Proof. unfold key_le, str_le. apply _. Defined.

Definition in_range (q : query) (kd : jsstring * fields) : bool :=
  str_leb q.1 kd.1 && str_ltb kd.1 q.2.

(** Modelled from the spec: the document store is an external service; its
    range scan returns the documents whose key lies in [start, stop), in
    ascending lexicographic key order (Store Adapter contract, rangeScan). *)
Definition rangeScan (c : collection) (q : query) : list (jsstring * fields) :=
  merge_sort key_le (filter (fun kd => in_range q kd = true) (map_to_list c)).

(** Modelled from the spec: existence check of the Store Adapter. *)
Definition doc_exists {D} (c : gmap jsstring D) (k : jsstring) : bool :=
  bool_decide (is_Some (c !! k)).

End Store.
Import Store.

(** ** src/db/index.js: the session cache and the prefix query *)

Module Db.

(** The [cache] dictionary. A field is [None] when it is unset ([null] in
    the initial dictionary, [undefined] after [cache = {}]); both are falsy
    and no code path tells them apart. *)
Record cache_t := {
  shopTag : option jsstring;
  ticketData : option (list value);
  prizeData : option (list value);
  uid : option jsstring
}.

(** The state of the client module: the object heap, the cache, and the
    range scans sent to the store so far. *)
Record client := {
  heap : heap_t;
  cache : cache_t;
  scans : list query
}.

(** [var cache = { shopTag: null, ticketData: [], prizeData: null, uid: null }] *)
Definition initial_cache : cache_t :=
  {| shopTag := None; ticketData := Some []; prizeData := None; uid := None |}.

Definition initial_client : client :=
  {| heap := ∅; cache := initial_cache; scans := [] |}.

(** [cache = {}] *)
Definition clearCachedData (c : client) : client :=
  {| heap := heap c;
     cache := {| shopTag := None; ticketData := None; prizeData := None; uid := None |};
     scans := scans c |}.

(** The two cached sequences, to write the two save functions once. *)
Inductive slot := Tickets | Prizes.

Definition get_slot (s : slot) (k : cache_t) : option (list value) :=
  match s with Tickets => ticketData k | Prizes => prizeData k end.

Definition set_slot (s : slot) (v : option (list value)) (k : cache_t) : cache_t :=
  match s with
  | Tickets => {| shopTag := shopTag k; ticketData := v; prizeData := prizeData k; uid := uid k |}
  | Prizes => {| shopTag := shopTag k; ticketData := ticketData k; prizeData := v; uid := uid k |}
  end.

(** [o.f = v] on the object at [l]. *)
Definition set_field (l : loc) (f : string) (v : value) (h : heap_t) : heap_t :=
  match h !! l with
  | Some o => <[l := <[f := v]> o]> h
  | None => h
  end.

(** An argument of [concat] is spread when it is an array. *)
Definition concat_arg (v : value) : list value :=
  match v with
  | VArr xs => xs
  | _ => [v]
  end.

(** [Array.prototype.concat(a, b)]: the receiver is the empty array
    [Array.prototype]. *)
Definition concat (a b : value) : list value :=
  [] ++ concat_arg a ++ concat_arg b.

(** Body of the [for] loop of the save functions, from index [i] on:
      [data[i].id = cache.X.length+1;]
      [cache.X = Array.prototype.concat(cache.X, data[i]);] *)
Fixpoint save_loop (s : slot) (rest : list loc) (c : client) : client :=
  match rest with
  | [] => c
  | l :: rest' =>
      let cached := default [] (get_slot s (cache c)) in
      let h := set_field l "id"
                 (VNum (num_add (num_of_Z (Z.of_nat (length cached))) (num_of_Z 1)))
                 (heap c) in
      let cached' := concat (VArr cached) (VRef l) in
      save_loop s rest'
        {| heap := h; cache := set_slot s (Some cached') (cache c); scans := scans c |}
  end.

Definition save_to_memory (s : slot) (data : list loc) (c : client)
  : list value * client :=
  let c' :=
    match get_slot s (cache c) with
    | Some _ => save_loop s data c
    | None =>
        {| heap := heap c;
           cache := set_slot s (Some [VArr (VRef <$> data)]) (cache c);
           scans := scans c |}
    end in
  (default [] (get_slot s (cache c')), c').

(** [saveTicketsToMemory(data)] *)
Definition saveTicketsToMemory := save_to_memory Tickets.

(** [savePrizesToMemory(data)] *)
Definition savePrizesToMemory := save_to_memory Prizes.

(** The bounds of the prefix query:
      [start = prefix;]
      [stop = head + String.fromCharCode(tail.charCodeAt(0) + 1)]. *)
Definition prefix_query (prefix : jsstring) : query :=
  let len := str_length prefix in
  let head := slice prefix 0 (len - 1) in
  let tail := slice prefix (len - 1) len in
  let start := prefix in
  let stop := head ++ fromCharCode (num_add (charCodeAt tail 0) (num_of_Z 1)) in
  (start, stop).

(** The callback of [snap.forEach]: a fresh object with the document's
    data, tagged with its 1-based position and its key, pushed on [data]. *)
Definition collect (acc : list value * heap_t) (doc : jsstring * fields)
  : list value * heap_t :=
  let '(data, h) := acc in
  let d := doc.2 in
  let d := <["id" := VNum (num_add (num_of_Z (Z.of_nat (length data))) (num_of_Z 1))]> d in
  let d := <["code" := VStr doc.1]> d in
  let l := fresh (dom h) in
  (data ++ [VRef l], <[l := d]> h).

(** [cache.ticketData && cache.ticketData.length > 0] *)
Definition cached_tickets (k : cache_t) : bool :=
  match ticketData k with
  | Some xs => bool_decide (0 < length xs)
  | None => false
  end.

(** [getTicketsByPrefix(prefix)], run against the ["ticket-info"]
    collection [db] as it stands when the query is sent. *)
Definition getTicketsByPrefix (db : collection) (prefix : jsstring) (c : client)
  : list value * client :=
  let q := prefix_query prefix in
  if cached_tickets (cache c) then
    (default [] (ticketData (cache c)), c)
  else
    let snap := rangeScan db q in
    let '(data, h) := foldl collect ([], heap c) snap in
    (data,
     {| heap := h;
        cache := set_slot Tickets (Some data) (cache c);
        scans := scans c ++ [q] |}).

(** The records an array of references stands for. *)
Definition read_records (h : heap_t) (vs : list value) : list (option fields) :=
  (fun v => match v with VRef l => h !! l | _ => None end) <$> vs.

(** A stored document as the query hands it out at position [i]. *)
Definition tagged (i : nat) (kd : jsstring * fields) : fields :=
  <["code" := VStr kd.1]> (<["id" := VNum (num_of_Z (Z.of_nat i + 1))]> kd.2).

(** A ["ticket-info"] collection with the three keys of the prefix
    scenario. *)
Definition three_tickets (d1 d2 d3 : fields) : collection :=
  <[js "abc-111" := d1]> (<[js "abd-333" := d3]> (<[js "abc-222" := d2]> ∅)).

End Db.

(** ** functions/src/index.ts: account bootstrap and ticket issuance *)

Module Functions.

(** Codes of [functions.https.HttpsError] thrown by the module;
    [internal] is what a callable reports for any other exception. *)
Inductive error := unauthenticated | out_of_range | unknown | internal.

(** A document of the ["users"] collection. *)
Record userDoc := {
  createdAt : value;
  shopTag : jsstring
}.

(** [functions.https.CallableContext]: [auth] carries the caller's uid. *)
Record context := { auth : option jsstring }.

(** The [data] argument of [generateTickets]. A missing property reads as
    [undefined]. *)
Record request := {
  email : value;
  memo : value;
  amount : primitive
}.

(** What the module asks of the store, in program order. *)
Inductive event :=
| Checked (code : jsstring) (found : bool)
| SetTicket (code : jsstring) (doc : fields)
| SetUser (uid : jsstring) (doc : userDoc).

(** The state the functions run in. [inflight] holds the ticket writes
    that were sent without being awaited and that the store has not yet
    applied. *)
Record server := {
  users : gmap jsstring userDoc;
  ticket_info : collection;
  inflight : list (jsstring * fields);
  trace : list event;
  reads : nat;
  drawn : nat
}.

(** The surroundings of a run: the random source of [crypto.randomBytes],
    how many in-flight writes the store has applied by each read, and the
    identity provider ([None]: no such user; [Some None]: a user record
    without e-mail). *)
Record environment := {
  random : nat -> Byte.byte * Byte.byte * Byte.byte;
  arrivals : nat -> nat;
  accounts : jsstring -> option (option jsstring)
}.

(** A call returns, throws, or is still resampling a colliding code when
    the fuel of the model runs out. *)
Inductive outcome (A : Type) :=
| Returned (a : A)
| Thrown (e : error)
| Spinning.
Arguments Returned {A} a.
Arguments Thrown {A} e.
Arguments Spinning {A}.

Definition M (A : Type) : Type := server -> outcome A * server.

Definition ret {A} (a : A) : M A := fun w => (Returned a, w).

Definition bind {A B} (k : A -> M B) (m : M A) : M B :=
  fun w =>
    match m w with
    | (Returned a, w') => k a w'
    | (Thrown e, w') => (Thrown e, w')
    | (Spinning, w') => (Spinning, w')
    end.

Definition throw {A} (e : error) : M A := fun w => (Thrown e, w).
Definition spin {A} : M A := fun w => (Spinning, w).
Definition get : M server := fun w => (Returned w, w).

#[global] Instance M_ret : MRet M := @ret.
#[global] Instance M_bind : MBind M := @bind.

(** The store applies a write: upsert of the whole document. *)
Definition apply_write (c : collection) (kd : jsstring * fields) : collection :=
  <[kd.1 := kd.2]> c.

(** By the time the store serves the next read it has applied some more of
    the writes in flight, oldest first. *)
Definition settle (env : environment) : M unit := fun w =>
  let n := arrivals env (reads w) in
  (Returned tt,
   {| users := users w;
      ticket_info := foldl apply_write (ticket_info w) (take n (inflight w));
      inflight := drop n (inflight w);
      trace := trace w;
      reads := S (reads w);
      drawn := drawn w |}).

Definition log (e : event) : M unit := fun w =>
  (Returned tt,
   {| users := users w; ticket_info := ticket_info w; inflight := inflight w;
      trace := trace w ++ [e]; reads := reads w; drawn := drawn w |}).

(** [await db.collection("users").doc(uid).set(userData)] *)
Definition set_user (uid : jsstring) (d : userDoc) : M unit := fun w =>
  (Returned tt,
   {| users := <[uid := d]> (users w); ticket_info := ticket_info w;
      inflight := inflight w; trace := trace w ++ [SetUser uid d];
      reads := reads w; drawn := drawn w |}).

(** [db.collection("ticket-info").doc(code).set(ticketData)], not awaited:
    the write is on its way when the function goes on. *)
Definition set_ticket (code : jsstring) (d : fields) : M unit := fun w =>
  (Returned tt,
   {| users := users w; ticket_info := ticket_info w;
      inflight := inflight w ++ [(code, d)];
      trace := trace w ++ [SetTicket code d];
      reads := reads w; drawn := drawn w |}).

(** [(await db.doc(ticketPath).get()).exists] *)
Definition ticket_exists (env : environment) (code : jsstring) : M bool :=
  settle env;;
  w ← get;
  let found := doc_exists (ticket_info w) code in
  log (Checked code found);;
  ret found.

(** One lowercase hexadecimal digit. *)
Definition hex_digit (d : Z) : Z := (if d <? 10 then 48 + d else 87 + d)%Z.

(** [buf.toString("hex")] *)
Definition toString_hex (buf : list Byte.byte) : jsstring :=
  flat_map (fun b => let n := Z.of_N (Byte.to_N b) in
                     [hex_digit (n / 16); hex_digit (n mod 16)]%Z) buf.

(** The three bytes of a sample, as a buffer. *)
Definition buffer (b : Byte.byte * Byte.byte * Byte.byte) : list Byte.byte :=
  [b.1.1; b.1.2; b.2].

Section WithHost.

Context `{SB : StringBuiltins} (env : environment).

(** [crypto.randomBytes(3)]: the next sample of the random source. *)
Definition randomBytes3 : M (list Byte.byte) := fun w =>
  (Returned (buffer (random env (drawn w))),
   {| users := users w; ticket_info := ticket_info w; inflight := inflight w;
      trace := trace w; reads := reads w; drawn := S (drawn w) |}).

(** [crypto.randomBytes(3).toString("hex").toUpperCase()] *)
Definition random_suffix : M jsstring :=
  buf ← randomBytes3;
  ret (toUpperCase (toString_hex buf)).

(** [`${shopTag}-${suffix}`] *)
Definition make_code (shopTag suffix : jsstring) : jsstring :=
  shopTag ++ js "-" ++ suffix.

(** The code built from the [k]-th sample of the random source. *)
Definition sample_code (shopTag : jsstring) (k : nat) : jsstring :=
  make_code shopTag (toUpperCase (toString_hex (buffer (random env k)))).

Definition checkAuthentication (ctx : context) : M unit :=
  match auth ctx with
  | None => throw unauthenticated
  | Some _ => ret tt
  end.

Definition accountExists (uid : jsstring) : M bool :=
  settle env;;
  w ← get;
  ret (doc_exists (users w) uid).

(** [initUserAccount(uid, email)]; [email] is [None] when the user record
    has no e-mail, and [email.split] then throws. *)
Definition initUserAccount (uid : jsstring) (email : option jsstring) : M bool :=
  found ← accountExists uid;
  if found : bool then ret false
  else
    match email with
    | None => throw internal
    | Some email =>
        let emailPrefix := split_head 64 email in
        let numChars :=
          if (5 <=? str_length emailPrefix)%Z then 5%Z else str_length emailPrefix in
        let defaultTag := toLowerCase (substring0 emailPrefix numChars) in
        let timestamp := VServerTimestamp in
        let userData := {| createdAt := timestamp; shopTag := defaultTag |} in
        set_user uid userData;;
        ret true
    end.

(** [admin.auth().getUser(uid).then(userRecord => userRecord.email)] *)
Definition getUser_email (uid : jsstring) : M (option jsstring) :=
  match accounts env uid with
  | None => throw internal
  | Some e => ret e
  end.

(** [userLoggedIn]: the [result] field of the returned object. *)
Definition userLoggedIn (ctx : context) : M string :=
  checkAuthentication ctx;;
  let uid := default [] (auth ctx) in
  email ← getUser_email uid;
  newAccountCreated ← initUserAccount uid email;
  if newAccountCreated : bool then ret "created"%string else ret "success"%string.

(** The [while] loop that avoids duplicates: as long as the document of
    [code] exists, draw another suffix. *)
Fixpoint resample (fuel : nat) (shopTag code : jsstring) : M jsstring :=
  found ← ticket_exists env code;
  if found : bool then
    match fuel with
    | O => spin
    | S fuel' =>
        suffix ← random_suffix;
        resample fuel' shopTag (make_code shopTag suffix)
    end
  else ret code.

(** "Generate a unique code". *)
Definition unique_code (fuel : nat) (shopTag : jsstring) : M jsstring :=
  suffix ← random_suffix;
  resample fuel shopTag (make_code shopTag suffix).

Definition ticketData (timestamp email memo : value) : fields :=
  <["createdAt" := timestamp]> (
  <["email" := email]> (
  <["memo" := memo]> (
  <["orderID" := VNull]> (
  <["prizeID" := VNull]> (
  <["redeemed" := VBool false]> (
  <["shipped" := VBool false]> ∅)))))).

(** [for (let i = 0; i < amount; i++) { ... }] from counter [i] on. *)
Fixpoint issue_loop (fuel retries : nat) (i : Z) (amount : primitive)
    (shopTag : jsstring) (timestamp email memo : value)
    (tickets : gmap jsstring fields) : M (gmap jsstring fields) :=
  if num_ltb (num_of_Z i) (ToNumber amount) then
    match fuel with
    | O => spin
    | S fuel' =>
        code ← unique_code retries shopTag;
        let d := ticketData timestamp email memo in
        set_ticket code d;;
        issue_loop fuel' retries (i + 1) amount shopTag timestamp email memo
          (<[code := d]> tickets)
    end
  else ret tickets.

(** [db.doc(`/users/${uid}`).get().then(snapshot => snapshot.data().shopTag)]:
    without a user document [snapshot.data()] is undefined and the
    handler's exception is rethrown as [unknown]. *)
Definition read_shopTag (uid : jsstring) : M jsstring :=
  settle env;;
  w ← get;
  match users w !! uid with
  | Some d => ret (shopTag d)
  | None => throw unknown
  end.

Definition generateTickets (fuel : nat) (data : request) (ctx : context)
  : M (gmap jsstring fields) :=
  let email := email data in
  let memo := memo data in
  let amount := amount data in
  checkAuthentication ctx;;
  if num_gtb (ToNumber amount) (num_of_Z 10) || num_ltb (ToNumber amount) (num_of_Z 1)
  then throw out_of_range
  else
    let uid := default [] (auth ctx) in
    shopTag ← read_shopTag uid;
    let tickets := ∅ in
    let timestamp := VServerTimestamp in
    issue_loop fuel fuel 0 amount shopTag timestamp email memo tickets.

End WithHost.

(** *** Shapes used to state what a run does *)

(** The characters of an uppercase hexadecimal rendering. *)
Definition is_upper_hex (c : Z) : Prop := (48 <= c <= 57 \/ 65 <= c <= 70)%Z.

(** [code] is [tag], a dash, and six uppercase hexadecimal digits. *)
Definition is_code (tag code : jsstring) : Prop :=
  exists suffix, code = tag ++ js "-" ++ suffix /\
                 length suffix = 6 /\ Forall is_upper_hex suffix.

(** A number outside, respectively inside, the range 1..10. *)
Definition outside_1_10 (n : number) : Prop :=
  match n with
  | Fin q => (q < 1 \/ 10 < q)%Q
  | PosInf | NegInf => True
  | NaN => False
  end.

Definition within_1_10 (n : number) : Prop :=
  match n with
  | Fin q => (1 <= q /\ q <= 10)%Q
  | _ => False
  end.

(** One round of code generation as the trace shows it: the codes that
    were found in the store and dropped, then the code that was not found
    and the document written under it. *)
Record attempt := {
  collided : list jsstring;
  issued : jsstring;
  written : fields
}.

Definition collisions (codes : list jsstring) : list event :=
  (fun c => Checked c true) <$> codes.

Definition attempt_events (a : attempt) : list event :=
  collisions (collided a) ++ [Checked (issued a) false; SetTicket (issued a) (written a)].

(** A round for shop tag [tag] that wrote the document [d]. *)
Definition round_ok (tag : jsstring) (d : fields) (a : attempt) : Prop :=
  is_code tag (issued a) /\ Forall (is_code tag) (collided a) /\ written a = d.

(** The mapping returned after the rounds [atts], starting from [tickets]. *)
Definition collect_tickets (tickets : gmap jsstring fields) (atts : list attempt)
  : gmap jsstring fields :=
  foldl (fun m a => <[issued a := written a]> m) tickets atts.

(** The codes written in a trace, in order. *)
Definition written_codes (tr : list event) : list jsstring :=
  omap (fun e => match e with SetTicket code _ => Some code | _ => None end) tr.

(** The codes the existence check found in the store, in order. *)
Definition found_codes (tr : list event) : list jsstring :=
  omap (fun e => match e with Checked code true => Some code | _ => None end) tr.

(** *** A scenario: the account of alice@example.com *)

Definition alice_uid : jsstring := js "uid-alice".

Definition alice_ctx : context := {| auth := Some alice_uid |}.

(** The random source repeats its first sample once, the store applies
    one write in flight per read, and the identity provider knows alice. *)
Definition alice_env : environment :=
  {| random := fun k =>
       match k with
       | 0 | 1 => (Byte.xa1, Byte.xb2, Byte.xc3)
       | 2 => (Byte.x00, Byte.xff, Byte.x10)
       | _ => (Byte.x7e, Byte.x5d, Byte.x09)
       end;
     arrivals := fun _ => 1;
     accounts := fun u =>
       if bool_decide (u = alice_uid) then Some (Some (js "alice@example.com"))
       else None |}.

Definition empty_server : server :=
  {| users := ∅; ticket_info := ∅; inflight := []; trace := [];
     reads := 0; drawn := 0 |}.

(** The server once alice has an account. *)
Definition alice_server : server :=
  {| users := {[ alice_uid := {| createdAt := VServerTimestamp; shopTag := js "alice" |} ]};
     ticket_info := ∅; inflight := []; trace := [];
     reads := 1; drawn := 0 |}.

Definition alice_request (n : primitive) : request :=
  {| email := VStr (js "bob@example.com"); memo := VStr (js "gift"); amount := n |}.

End Functions.


(** A host whose case conversions act on ASCII letters only, to run the
    functions on ASCII input. *)
Definition ascii_builtins : StringBuiltins :=
  {| toLowerCase := fmap ascii_lower;
     toUpperCase := fmap ascii_upper;
     StringToNumber := fun _ => NaN;
     toUpperCase_ascii := fun s _ => eq_refl;
     toLowerCase_ascii := fun s _ => eq_refl |}.

(** A host whose [toLowerCase] also knows the special casing of
    ECMAScript's that lengthens a string: U+0130, capital I with dot
    above, becomes the two units U+0069 U+0307. On every other code unit
    it acts as [ascii_builtins]. *)
Definition dotted_lower (c : Z) : jsstring :=
  if (c =? 304)%Z then [105; 775]%Z else [ascii_lower c].

Definition dotted_toLowerCase (s : jsstring) : jsstring := flat_map dotted_lower s.

Definition dotted_builtins : StringBuiltins.
Proof.
  refine {| toLowerCase := dotted_toLowerCase;
            toUpperCase := fmap ascii_upper;
            StringToNumber := fun _ => NaN;
            toUpperCase_ascii := fun s _ => eq_refl;
            toLowerCase_ascii := _ |}.
  intros s Hs. induction Hs as [|c s Hc _ IH]; [reflexivity|].
  unfold dotted_toLowerCase in *. cbn [flat_map]. rewrite IH.
  unfold dotted_lower, is_ascii in *.
  destruct (Z.eqb_spec c 304) as [->|_]; [lia|reflexivity].
Defined.

(** ** src/db/index.js: the shop tag, the listings and deletePrize *)

Module Session.

(** The collections the client reads, as they stand during a call. *)
Record firestore := {
  users : gmap jsstring Functions.userDoc;
  ticket_info : collection;
  prizes : collection;
  prize_info : collection
}.

(** What the client asks of the store besides the range scans, in
    program order. *)
Inductive call :=
| GetDoc (col : string) (id : jsstring)
| QueryCreator (uid : jsstring)
| DeleteDoc (col : string) (id : jsstring).

(** The client module with what it shows and asks: the state of [Db], the
    messages of [alert], and the calls sent to the store. *)
Record session := {
  client : Db.client;
  alerts : list jsstring;
  calls : list call
}.

(** An awaited promise resolves, or rejects with the TypeError of a
    property read on [null] or [undefined]. *)
Inductive settled (A : Type) :=
| Resolved (a : A)
| Rejected.
Arguments Resolved {A} a.
Arguments Rejected {A}.

Definition initial_session : session :=
  {| client := Db.initial_client; alerts := []; calls := [] |}.

Definition with_client (c : Db.client) (s : session) : session :=
  {| client := c; alerts := alerts s; calls := calls s |}.

Definition sent (k : call) (s : session) : session :=
  {| client := client s; alerts := alerts s; calls := calls s ++ [k] |}.

(** [alert(msg)] *)
Definition alert (msg : jsstring) (s : session) : session :=
  {| client := client s; alerts := alerts s ++ [msg]; calls := calls s |}.

(** [clearCachedData()] on the session. *)
Definition clearCachedData (s : session) : session :=
  with_client (Db.clearCachedData (client s)) s.

(** Truthiness of [cache.shopTag]: unset and the empty string are falsy. *)
Definition truthy_tag (t : option jsstring) : bool :=
  match t with
  | Some (_ :: _) => true
  | _ => false
  end.

(** [cache.shopTag = tag] *)
Definition set_shopTag (tag : option jsstring) (c : Db.client) : Db.client :=
  {| Db.heap := Db.heap c;
     Db.cache := {| Db.shopTag := tag;
                    Db.ticketData := Db.ticketData (Db.cache c);
                    Db.prizeData := Db.prizeData (Db.cache c);
                    Db.uid := Db.uid (Db.cache c) |};
     Db.scans := Db.scans c |}.

(** [getUserShopTag(uid)]; the result [None] is [null]. *)
Definition getUserShopTag (fs : firestore) (uid : jsstring) (s : session)
  : option jsstring * session :=
  if truthy_tag (Db.shopTag (Db.cache (client s))) then
    (Db.shopTag (Db.cache (client s)), s)
  else
    let s := sent (GetDoc "users" uid) s in
    match users fs !! uid with
    | Some d =>
        let tag := Functions.shopTag d in
        (Some tag, with_client (set_shopTag (Some tag) (client s)) s)
    | None => (None, alert (js "No shop tag set!") s)
    end.

(** [getTicketsGeneratedByUser(user)], [uid] being [user.uid]: on a
    [null] shop tag, [prefix.length] throws. *)
Definition getTicketsGeneratedByUser (fs : firestore) (uid : jsstring) (s : session)
  : settled (list value) * session :=
  let '(prefix, s) := getUserShopTag fs uid s in
  match prefix with
  | None => (Rejected, s)
  | Some prefix =>
      let '(data, c) := Db.getTicketsByPrefix (ticket_info fs) prefix (client s) in
      (Resolved data, with_client c s)
  end.

(** [getPrizeInfo(id)]: the data of the ["prize-info"] document, [None]
    ([undefined]) when there is none. *)
Definition getPrizeInfo (fs : firestore) (id : jsstring) (s : session)
  : option fields * session :=
  (prize_info fs !! id, sent (GetDoc "prize-info" id) s).

(** [getPrizeMetaData(id)] *)
Definition getPrizeMetaData (fs : firestore) (id : jsstring) (s : session)
  : option fields * session :=
  (prizes fs !! id, sent (GetDoc "prizes" id) s).

(** [where("creatorUserID", "==", uid)] on one document. *)
Definition created_by (uid : jsstring) (kd : jsstring * fields) : bool :=
  match kd.2 !! "creatorUserID" with
  | Some (VStr u) => bool_decide (u = uid)
  | _ => false
  end.

(** The store's answer to the equality query: the documents whose field
    is the given string, in ascending key order. *)
Definition queryCreator (c : collection) (uid : jsstring) : list (jsstring * fields) :=
  merge_sort key_le (filter (fun kd => created_by uid kd = true) (map_to_list c)).

(** [o.f] on the data of a document: a missing field reads [undefined]. *)
Definition field (d : fields) (f : string) : value := default VUndefined (d !! f).

(** The object literal [fullPrizeData] for the document at index [i]. *)
Definition fullPrizeData (i : Z) (docId : jsstring) (prizeMetaData prizeInfoData : fields)
  : fields :=
  <["id" := VNum (num_add (num_of_Z i) (num_of_Z 1))]> (
  <["docId" := VStr docId]> (
  <["name" := field prizeInfoData "name"]> (
  <["description" := field prizeInfoData "description"]> (
  <["image" := field prizeInfoData "image"]> (
  <["quantity" := field prizeMetaData "quantity"]> (
  <["createdAt" := field prizeMetaData "createdAt"]> ∅)))))).

(** [for (let i = 0; i < snap.size; i++) { ... }] from index [i] on,
    [docs] being [snap.docs] from that index: without an info document
    [prizeInfoData.name] throws. *)
Fixpoint join_prizes (fs : firestore) (i : Z) (docs : list (jsstring * fields))
    (prizes : list value) (s : session) : settled (list value) * session :=
  match docs with
  | [] => (Resolved prizes, s)
  | doc :: docs' =>
      let prizeMetaData := doc.2 in
      let '(prizeInfoData, s) := getPrizeInfo fs doc.1 s in
      match prizeInfoData with
      | None => (Rejected, s)
      | Some prizeInfoData =>
          let full := fullPrizeData i doc.1 prizeMetaData prizeInfoData in
          let c := client s in
          let l := fresh (dom (Db.heap c)) in
          let c := {| Db.heap := <[l := full]> (Db.heap c);
                      Db.cache := Db.cache c; Db.scans := Db.scans c |} in
          join_prizes fs (i + 1) docs' (prizes ++ [VRef l]) (with_client c s)
      end
  end.

(** The joined record of the [i]-th document of the query, read with the
    info document the store holds for it. *)
Definition joined (fs : firestore) (i : nat) (kd : jsstring * fields) : fields :=
  fullPrizeData (Z.of_nat i) kd.1 kd.2 (default ∅ (prize_info fs !! kd.1)).

(** [cache.prizeData = v] *)
Definition set_prizeData (v : option (list value)) (c : Db.client) : Db.client :=
  {| Db.heap := Db.heap c;
     Db.cache := Db.set_slot Db.Prizes v (Db.cache c);
     Db.scans := Db.scans c |}.

(** [getPrizesGeneratedByUser(user)], [uid] being [user.uid]: the query
    is awaited before the cache is looked at. *)
Definition getPrizesGeneratedByUser (fs : firestore) (uid : jsstring) (s : session)
  : settled (list value) * session :=
  let s := sent (QueryCreator uid) s in
  let snap := queryCreator (prizes fs) uid in
  match Db.prizeData (Db.cache (client s)) with
  | Some cached => (Resolved cached, s)
  | None =>
      match join_prizes fs 0 snap [] s with
      | (Resolved prizes, s) =>
          (Resolved prizes, with_client (set_prizeData (Some prizes) (client s)) s)
      | (Rejected, s) => (Rejected, s)
      end
  end.

(** [deletePrize(id)]: both documents are deleted, then the cached prize
    list is dropped. *)
Definition deletePrize (id : jsstring) (fs : firestore) (s : session)
  : bool * firestore * session :=
  let itemDeleted := false in
  let fs := {| users := users fs; ticket_info := ticket_info fs;
               prizes := delete id (prizes fs); prize_info := prize_info fs |} in
  let s := sent (DeleteDoc "prizes" id) s in
  let fs := {| users := users fs; ticket_info := ticket_info fs;
               prizes := prizes fs; prize_info := delete id (prize_info fs) |} in
  let s := sent (DeleteDoc "prize-info" id) s in
  let s :=
    match Db.prizeData (Db.cache (client s)) with
    | Some _ => with_client (set_prizeData None (client s)) s
    | None => s
    end in
  let itemDeleted := true in
  (itemDeleted, fs, s).

(** [saveTicketsToMemory(data)] and [savePrizesToMemory(data)] on the
    session. *)
Definition saveTicketsToMemory (data : list loc) (s : session)
  : list value * session :=
  let '(r, c) := Db.saveTicketsToMemory data (client s) in (r, with_client c s).

Definition savePrizesToMemory (data : list loc) (s : session)
  : list value * session :=
  let '(r, c) := Db.savePrizesToMemory data (client s) in (r, with_client c s).

(** The id a cached record carries. *)
Definition record_id (h : heap_t) (v : value) : option value :=
  match v with
  | VRef l => h !! l ≫= fun o => o !! "id"
  | _ => None
  end.

(** Every cached record is numbered by its 1-based position. *)
Definition numbered (h : heap_t) (vs : list value) : Prop :=
  forall i v, vs !! i = Some v ->
    record_id h v = Some (VNum (num_of_Z (Z.of_nat i + 1))).

(** The references of a cached list. *)
Definition refs (vs : list value) : list loc :=
  omap (fun v => match v with VRef l => Some l | _ => None end) vs.

End Session.
(** ** Notions to state what a batch of tickets is *)

Module Batch.

(** The ["ticket-info"] collection once every write in flight has been
    applied. *)
Definition eventual (w : Functions.server) : collection :=
  foldl Functions.apply_write (Functions.ticket_info w) (Functions.inflight w).

(** The store applies at least one write in flight before it serves a
    read. *)
Definition prompt (env : Functions.environment) : Prop :=
  forall k, 1 <= Functions.arrivals env k.



End Batch.
(** ** functions/src/index.ts: addNewPrize *)

Module Prizes.

(** [parseInt] of the host, fixed where the code relies on it: an integer
    below 1e21 in magnitude is printed in plain decimal digits and parsed
    back to itself, and [undefined] prints as a word that holds no
    digit. *)
Class NumberBuiltins := {
  parseInt : primitive -> number;
  parseInt_integer :
    forall z, (- 10 ^ 21 < z < 10 ^ 21)%Z -> parseInt (PNum (num_of_Z z)) = num_of_Z z;
  parseInt_undefined : parseInt PUndefined = NaN
}.

(** The [data] argument of [addNewPrize]. *)
Record request := {
  name : value;
  description : value;
  quantity : primitive;
  image : value
}.

(** The object [addNewPrize] returns. *)
Record created := {
  id : jsstring;
  prizeMetaData : fields;
  prizeInfoData : fields
}.

(** The two prize collections as the function sees them. [inflight] holds
    the info writes that were sent without being awaited and that the
    store has not yet applied. *)
Record store := {
  prizes : collection;
  prize_info : collection;
  inflight : list (jsstring * fields)
}.

(** The store applies the [n] oldest writes in flight. *)
Definition land (n : nat) (w : store) : store :=
  {| prizes := prizes w;
     prize_info := foldl Functions.apply_write (prize_info w) (take n (inflight w));
     inflight := drop n (inflight w) |}.

Section WithHost.

Context `{NB : NumberBuiltins}.

(** Modelled from the spec: [add] stores the document under a key the
    store assigns (Store Adapter contract, add); [assign] is that choice. *)
Variable assign : collection -> jsstring.

Definition metaData (timestamp : value) (uid : jsstring) (quantity : number) : fields :=
  <["createdAt" := timestamp]> (
  <["creatorUserID" := VStr uid]> (
  <["quantity" := VNum quantity]> ∅)).

Definition infoData (description url name timestamp : value) : fields :=
  <["description" := description]> (
  <["image" := url]> (
  <["name" := name]> (
  <["lastModified" := timestamp]> ∅))).

(** [addNewPrize(data, context)]: the metadata document is added and
    awaited; the info document is set under the same id from the [then]
    handler, which does not wait for it. *)
Definition addNewPrize (data : request) (ctx : Functions.context) (w : store)
  : Functions.outcome created * store :=
  let name := name data in
  let description := description data in
  let quantity := parseInt (quantity data) in
  let url := image data in
  match Functions.auth ctx with
  | None => (Functions.Thrown Functions.unauthenticated, w)
  | Some uid =>
      if num_ltb quantity (num_of_Z 0) || num_gtb quantity (num_of_Z 999)
      then (Functions.Thrown Functions.out_of_range, w)
      else
        let timestamp := VServerTimestamp in
        let prizeMetaData := metaData timestamp uid quantity in
        let prizeInfoData := infoData description url name timestamp in
        let id := assign (prizes w) in
        (Functions.Returned
           {| id := id; prizeMetaData := prizeMetaData; prizeInfoData := prizeInfoData |},
         {| prizes := <[id := prizeMetaData]> (prizes w);
            prize_info := prize_info w;
            inflight := inflight w ++ [(id, prizeInfoData)] |})
  end.

End WithHost.

(** What a client reads of the store. *)
Definition client_view (users : gmap jsstring Functions.userDoc) (tickets : collection)
    (w : store) : Session.firestore :=
  {| Session.users := users; Session.ticket_info := tickets;
     Session.prizes := prizes w; Session.prize_info := prize_info w |}.

(** A host that parses the integers it is given, to run the function. *)
Definition integer_parseInt (p : primitive) : number :=
  match p with
  | PNum (Fin (Qmake z 1)) => Fin (Qmake z 1)
  | _ => NaN
  end.

Definition integer_builtins : NumberBuiltins :=
  {| parseInt := integer_parseInt;
     parseInt_integer := fun z _ => eq_refl;
     parseInt_undefined := eq_refl |}.

(** A store with no prize, and the key the store assigns in the
    scenario. *)
Definition empty_store : store := {| prizes := ∅; prize_info := ∅; inflight := [] |}.

Definition first_key (c : collection) : jsstring := js "prize-1".

Definition mug (n : primitive) : request :=
  {| name := VStr (js "Mug"); description := VStr (js "A mug");
     quantity := n; image := VStr (js "mug.png") |}.

End Prizes.
(** ** A shop to run the client and the prize functions on *)

Module Scenario.

Definition bob_uid : jsstring := js "uid-bob".

(** A user whose shop tag is the empty string. *)
Definition anon_uid : jsstring := js "uid-anon".

Definition prize_of (uid : jsstring) (n : Z) : fields :=
  Prizes.metaData VServerTimestamp uid (num_of_Z n).

Definition info_of (name : string) : fields :=
  Prizes.infoData (VStr (js "a prize")) (VStr (js "p.png")) (VStr (js name))
    VServerTimestamp.

(** Alice has two tickets and two prizes; another shop, alice2, has a tag that
    extends hers; bob's prize has lost its info document. *)
Definition shop : Session.firestore :=
  {| Session.users :=
       <[Functions.alice_uid :=
           {| Functions.createdAt := VServerTimestamp; Functions.shopTag := js "alice" |}]> (
       <[anon_uid :=
           {| Functions.createdAt := VServerTimestamp; Functions.shopTag := [] |}]> ∅);
     Session.ticket_info :=
       <[js "alice-A1B2C3" := ∅]> (
       <[js "alice-00FF10" := ∅]> (
       <[js "alice2-7E5D09" := ∅]> (
       <[js "bob-123456" := ∅]> ∅)));
     Session.prizes :=
       <[js "prize-1" := prize_of Functions.alice_uid 5]> (
       <[js "prize-2" := prize_of Functions.alice_uid 1]> (
       <[js "prize-3" := prize_of bob_uid 2]> ∅));
     Session.prize_info :=
       <[js "prize-1" := info_of "Mug"]> (
       <[js "prize-2" := info_of "Pin"]> ∅) |}.

(** A client that holds one record object and has it cached as its only
    ticket. *)
Definition first_record : fields := <["id" := VNum (num_of_Z 1)]> ∅.

Definition one_cached : Db.client :=
  {| Db.heap := <[1%positive := first_record]> (
                <[2%positive := ∅]> ∅);
     Db.cache := {| Db.shopTag := None; Db.ticketData := Some [VRef 1%positive];
                    Db.prizeData := None; Db.uid := None |};
     Db.scans := [] |}.

(** The initial client holding two record objects that are not cached. *)
Definition two_fresh : Db.client :=
  {| Db.heap := <[1%positive := ∅]> (<[2%positive := ∅]> ∅);
     Db.cache := Db.initial_cache;
     Db.scans := [] |}.

(** An identity provider whose user records carry no e-mail. *)
Definition phone_env : Functions.environment :=
  {| Functions.random := Functions.random Functions.alice_env;
     Functions.arrivals := Functions.arrivals Functions.alice_env;
     Functions.accounts := fun _ => Some None |}.

Definition anonymous : Functions.context := {| Functions.auth := None |}.

End Scenario.
(** ** Facts about strings and numbers *)

Section StringOrder.

Lemma str_ltb_irrefl a : str_ltb a a = false.
Proof.
  induction a as [|x a IH]; simpl; [done|].
  rewrite Z.ltb_irrefl, Z.eqb_refl, IH. done.
Qed.

Lemma str_ltb_asym a b : str_ltb a b = true -> str_ltb b a = false.
Proof.
  revert b. induction a as [|x a IH]; intros [|y b]; simpl; try done.
  intros H. apply orb_true_iff in H as [H|H].
  - apply Z.ltb_lt in H.
    replace (y <? x)%Z with false by (symmetry; apply Z.ltb_ge; lia).
    replace (y =? x)%Z with false by (symmetry; apply Z.eqb_neq; lia). done.
  - apply andb_true_iff in H as [H1 H2]. apply Z.eqb_eq in H1 as ->.
    rewrite Z.ltb_irrefl, Z.eqb_refl. simpl. by apply IH.
Qed.

Lemma str_ltb_trans a b c :
  str_ltb a b = true -> str_ltb b c = true -> str_ltb a c = true.
Proof.
  revert b c. induction a as [|x a IH]; intros [|y b] [|z c]; simpl; try done.
  rewrite !orb_true_iff, !andb_true_iff, !Z.ltb_lt, !Z.eqb_eq.
  intros [H1|[H1 H1']] [H2|[H2 H2']]; subst; eauto with lia.
Qed.

Lemma str_ltb_connex a b :
  str_ltb a b = false -> str_ltb b a = false -> a = b.
Proof.
  revert b. induction a as [|x a IH]; intros [|y b]; simpl; try done.
  rewrite !orb_false_iff, !andb_false_iff, !Z.ltb_ge, !Z.eqb_neq.
  intros [H1 H1'] [H2 H2']. assert (x = y) as -> by lia.
  f_equal. apply IH; [destruct H1'|destruct H2']; done.
Qed.

Lemma str_le_lt_trans a b c :
  str_leb a b = true -> str_leb b c = true -> str_leb a c = true.
Proof.
  unfold str_leb. rewrite !negb_true_iff. intros Hba Hcb.
  destruct (str_ltb c a) eqn:Hca; [|done].
  destruct (str_ltb a b) eqn:Hab.
  - by rewrite (str_ltb_trans c a b) in Hcb.
  - rewrite (str_ltb_connex a b) in Hca by done. congruence.
Qed.

(** The range [[h ++ [c], h ++ [c + 1])] holds the strings that start
    with [h ++ [c]] and no other. *)
Lemma prefix_range h c k :
  str_leb (h ++ [c]) k && str_ltb k (h ++ [(c + 1)%Z]) = true
  <-> (h ++ [c]) `prefix_of` k.
Proof.
  unfold str_leb. revert k. induction h as [|a h IH]; intros k; simpl.
  - destruct k as [|x t]; simpl.
    + split; [done|]. intros [t' Ht]. done.
    + rewrite andb_true_iff, negb_true_iff, !orb_false_iff, !orb_true_iff,
        !andb_false_iff, !andb_true_iff, Z.ltb_ge, Z.ltb_lt, Z.eqb_neq, Z.eqb_eq.
      split.
      * intros [[H1 _] [H2|[_ H2]]]; [|by destruct t].
        assert (x = c) as -> by lia. by exists t.
      * intros [t' [= -> ->]]. split; [split; [lia|]|left; lia].
        right. by destruct t'.
  - destruct k as [|x t]; simpl.
    + split; [done|]. intros [t' Ht]. done.
    + rewrite andb_true_iff, negb_true_iff, !orb_false_iff, !orb_true_iff,
        !andb_false_iff, !andb_true_iff, Z.ltb_ge, Z.ltb_lt, Z.eqb_neq, Z.eqb_eq.
      split.
      * intros [[H1 H1'] [H2|[H2 H2']]]; [lia|subst x].
        destruct H1' as [H1'|H1']; [done|].
        apply prefix_cons, IH. by rewrite H1', H2'.
      * intros [t' [= -> ->]].
        assert ((h ++ [c]) `prefix_of` (h ++ [c]) ++ t') as Hp by by exists t'.
        apply IH, andb_true_iff in Hp as [Hp1 Hp2].
        apply negb_true_iff in Hp1.
        split; [split; [lia|by right]|right; done].
Qed.

End StringOrder.

#[local] Instance key_le_trans : Transitive key_le.
Proof. intros a b c. unfold key_le, str_le. apply str_le_lt_trans. Qed.

#[local] Instance key_le_total : Total key_le.
Proof.
  intros a b. unfold key_le, str_le, str_leb.
  destruct (str_ltb b.1 a.1) eqn:H; [right|left]; [|done].
  by rewrite (str_ltb_asym _ _ H).
Qed.

Section Numbers.

Lemma num_add_of_Z a b : num_add (num_of_Z a) (num_of_Z b) = num_of_Z (a + b).
Proof.
  unfold num_add, num_of_Z, inject_Z, Qplus. simpl.
  by rewrite !Z.mul_1_r.
Qed.

Lemma ToUint16_of_Z z : (0 <= z < 65536)%Z -> ToUint16 (num_of_Z z) = z.
Proof.
  intros Hz. unfold ToUint16, num_of_Z.
  replace (Qle_bool 0 (inject_Z z)) with true.
  - rewrite Qfloor_Z. by apply Z.mod_small.
  - symmetry. apply Qle_bool_iff. unfold Qle, inject_Z. simpl. lia.
Qed.

End Numbers.

Section RangeScan.

Import Db.

Lemma elem_of_rangeScan (c : collection) q k d :
  (k, d) ∈ rangeScan c q <-> c !! k = Some d /\ in_range q (k, d) = true.
Proof.
  unfold rangeScan. rewrite merge_sort_Permutation, list_elem_of_filter.
  rewrite elem_of_map_to_list. tauto.
Qed.

Lemma NoDup_fst_filter {A B} (P : A * B -> Prop) `{!forall x, Decision (P x)}
    (l : list (A * B)) :
  NoDup l.*1 -> NoDup (filter P l).*1.
Proof.
  induction l as [|x l IH]; simpl; [done|].
  rewrite NoDup_cons. intros [Hx Hl].
  rewrite filter_cons. destruct (decide (P x)); [|by apply IH].
  simpl. apply NoDup_cons. split; [|by apply IH].
  intros Hin. apply Hx. apply list_elem_of_fmap in Hin as [y [-> Hy]].
  apply list_elem_of_fmap. exists y. split; [done|].
  by apply list_elem_of_filter in Hy as [_ Hy].
Qed.

Lemma NoDup_fst_rangeScan (c : collection) q : NoDup (rangeScan c q).*1.
Proof.
  unfold rangeScan. rewrite merge_sort_Permutation.
  apply NoDup_fst_filter, NoDup_fst_map_to_list.
Qed.

Lemma StronglySorted_keys (l : list (jsstring * fields)) :
  StronglySorted key_le l -> NoDup l.*1 -> StronglySorted str_lt l.*1.
Proof.
  induction 1 as [|x l Hl IH Hx]; simpl; [constructor|].
  rewrite NoDup_cons. intros [Hnx Hnd]. constructor; [by apply IH|].
  apply Forall_fmap, Forall_forall. intros y Hy. simpl.
  rewrite Forall_forall in Hx. specialize (Hx y Hy).
  unfold key_le, str_le, str_leb in Hx. apply negb_true_iff in Hx.
  unfold str_lt. destruct (str_ltb x.1 y.1) eqn:Hxy; [done|].
  exfalso. apply Hnx. rewrite (str_ltb_connex _ _ Hxy Hx).
  apply list_elem_of_fmap. by exists y.
Qed.

Lemma rangeScan_sorted (c : collection) q :
  StronglySorted str_lt (rangeScan c q).*1.
Proof.
  apply StronglySorted_keys; [|apply NoDup_fst_rangeScan].
  unfold rangeScan. apply (StronglySorted_merge_sort key_le).
Qed.

Lemma slice_head h (c : Z) :
  slice (h ++ [c]) 0 (str_length (h ++ [c]) - 1) = h.
Proof.
  unfold slice, slice_index, str_length. rewrite length_app. simpl length.
  replace (Z.of_nat (length h + 1) - 1)%Z with (Z.of_nat (length h)) by lia.
  change (0 <? 0)%Z with false. cbv iota.
  destruct (Z.ltb_spec (Z.of_nat (length h)) 0); [lia|].
  rewrite Z.min_l, Z.min_l by lia.
  rewrite Z.sub_0_r, Nat2Z.id. change (Z.to_nat 0) with 0%nat.
  rewrite drop_0. apply take_app_length.
Qed.

Lemma slice_tail h (c : Z) :
  slice (h ++ [c]) (str_length (h ++ [c]) - 1) (str_length (h ++ [c])) = [c].
Proof.
  unfold slice, slice_index, str_length. rewrite length_app. simpl length.
  replace (Z.of_nat (length h + 1) - 1)%Z with (Z.of_nat (length h)) by lia.
  destruct (Z.ltb_spec (Z.of_nat (length h)) 0); [lia|].
  destruct (Z.ltb_spec (Z.of_nat (length h + 1)) 0); [lia|].
  rewrite Z.min_l, Z.min_l by lia.
  replace (Z.to_nat (Z.of_nat (length h + 1) - Z.of_nat (length h))) with 1%nat by lia.
  rewrite Nat2Z.id, drop_app_length. done.
Qed.

(** For a non-empty prefix whose last unit is below 0xFFFF the query is
    [(prefix, head ++ [last + 1])]. *)
Lemma prefix_query_bounds h c :
  (0 <= c < 65535)%Z -> prefix_query (h ++ [c]) = (h ++ [c], h ++ [(c + 1)%Z]).
Proof.
  intros Hc. unfold prefix_query. cbv zeta.
  rewrite slice_head, slice_tail.
  unfold charCodeAt, fromCharCode. change ([c] !! 0%nat) with (Some c).
  cbv iota. rewrite num_add_of_Z, ToUint16_of_Z by lia. done.
Qed.

Example prefix_query_abc : Db.prefix_query (js "abc") = (js "abc", js "abd").
Proof. reflexivity. Qed.

(** Outside the precondition: on the empty prefix [charCodeAt] yields NaN
    and the upper bound is the string of the unit 0; on a last unit
    0xFFFF the increment wraps to 0 and the range is empty. *)
Example prefix_query_empty : Db.prefix_query [] = ([], [0%Z]).
Proof. reflexivity. Qed.

Example prefix_query_wraps :
  Db.prefix_query [97%Z; 65535%Z] = ([97%Z; 65535%Z], [97%Z; 0%Z]) /\
  forall db, rangeScan db (Db.prefix_query [97%Z; 65535%Z]) = [].
Proof.
  split; [reflexivity|]. intros db.
  destruct (rangeScan db (Db.prefix_query [97%Z; 65535%Z])) as [|[k d] l] eqn:E; [done|].
  assert ((k, d) ∈ rangeScan db (Db.prefix_query [97%Z; 65535%Z])) as Hin
    by (rewrite E; left).
  apply elem_of_rangeScan in Hin as [_ Hin]. exfalso.
  change (Db.prefix_query [97%Z; 65535%Z]) with ([97%Z; 65535%Z], [97%Z; 0%Z]) in Hin.
  unfold in_range, str_leb in Hin. simpl in Hin.
  destruct k as [|x [|y t]]; simpl in Hin; [done| |].
  - destruct (Z.ltb_spec 97 x), (Z.eqb_spec 97 x), (Z.ltb_spec x 97),
      (Z.eqb_spec x 97); simpl in Hin; try done; lia.
  - destruct (Z.ltb_spec 97 x), (Z.eqb_spec 97 x), (Z.ltb_spec x 97),
      (Z.eqb_spec x 97), (Z.ltb_spec y 0), (Z.eqb_spec y 0),
      (Z.ltb_spec 65535 y), (Z.eqb_spec 65535 y); simpl in Hin; try done; try lia.
    all: by destruct t.
Qed.

Lemma in_range_prefix h c kd :
  (0 <= c < 65535)%Z ->
  in_range (prefix_query (h ++ [c])) kd = true <-> (h ++ [c]) `prefix_of` kd.1.
Proof.
  intros Hc. rewrite prefix_query_bounds by done.
  unfold in_range. simpl. apply prefix_range.
Qed.

End RangeScan.

Section PrefixQuery.

Import Db.

Lemma read_records_app h xs ys :
  read_records h (xs ++ ys) = read_records h xs ++ read_records h ys.
Proof. unfold read_records. apply fmap_app. Qed.

(** Allocating a fresh object leaves the records already read alone. *)
Lemma read_records_alloc (h : heap_t) data recs o :
  read_records h data = Some <$> recs ->
  read_records (<[fresh (dom h) := o]> h) data = Some <$> recs.
Proof.
  intros Hr. rewrite <- Hr. unfold read_records. apply list_fmap_ext.
  intros i v Hv. destruct v; try done.
  assert (is_Some (h !! l)) as Hl.
  { assert (read_records h data !! i = Some (h !! l)) as Hi
      by (unfold read_records; rewrite list_lookup_fmap, Hv; done).
    rewrite Hr in Hi. rewrite list_lookup_fmap in Hi.
    destruct (recs !! i); simplify_eq/=. rewrite <- Hi. eauto. }
  rewrite lookup_insert_ne; [done|].
  intros <-. apply elem_of_dom in Hl. by apply is_fresh in Hl.
Qed.

Lemma collect_tagged data h kd :
  collect (data, h) kd =
    (data ++ [VRef (fresh (dom h))],
     <[fresh (dom h) := tagged (length data) kd]> h).
Proof. unfold collect, tagged. by rewrite num_add_of_Z. Qed.

Lemma foldl_collect snap : forall data h recs,
  read_records h data = Some <$> recs ->
  read_records (foldl collect (data, h) snap).2 (foldl collect (data, h) snap).1
  = Some <$> (recs ++ imap (fun i kd => tagged (length data + i) kd) snap).
Proof.
  induction snap as [|kd snap IH]; intros data h recs Hr; cbn [foldl].
  - simpl. by rewrite app_nil_r.
  - rewrite collect_tagged.
    rewrite (IH _ _ (recs ++ [tagged (length data) kd])).
    + rewrite <- app_assoc. simpl. rewrite Nat.add_0_r. do 3 f_equal.
      apply imap_ext. intros i x _. simpl. rewrite length_app. simpl.
      f_equal. lia.
    + rewrite read_records_app, fmap_app.
      rewrite (read_records_alloc _ _ recs) by done.
      simpl. by rewrite lookup_insert_eq.
Qed.

End PrefixQuery.

(** ** The prefix query of [getTicketsByPrefix] *)

Section GetTicketsByPrefix.

Import Db.

(** When nothing is cached, the call sends one range scan with the bounds
    of [prefix_query], hands out the scanned documents in order, each as a
    fresh tagged object, and caches that list. *)
Lemma getTicketsByPrefix_miss db prefix c :
  cached_tickets (cache c) = false ->
  let r := getTicketsByPrefix db prefix c in
  scans r.2 = scans c ++ [prefix_query prefix] /\
  read_records (heap r.2) r.1 = Some <$> imap tagged (rangeScan db (prefix_query prefix)) /\
  ticketData (cache r.2) = Some r.1.
Proof.
  intros Hc. unfold getTicketsByPrefix. rewrite Hc.
  pose proof (foldl_collect (rangeScan db (prefix_query prefix)) [] (heap c) [] eq_refl) as Hf.
  destruct (foldl collect ([], heap c) (rangeScan db (prefix_query prefix)))
    as [data h] eqn:E.
  simpl in *. done.
Qed.

(** When a non-empty list is cached, the call returns it and leaves the
    state, scan log included, as it was. *)
Lemma getTicketsByPrefix_hit db prefix c :
  cached_tickets (cache c) = true ->
  getTicketsByPrefix db prefix c = (default [] (ticketData (cache c)), c).
Proof. intros Hc. unfold getTicketsByPrefix. by rewrite Hc. Qed.

Lemma rangeScan_three_tickets d1 d2 d3 :
  rangeScan (three_tickets d1 d2 d3) (prefix_query (js "abc"))
  = [(js "abc-111", d1); (js "abc-222", d2)].
Proof. vm_compute. reflexivity. Qed.

End GetTicketsByPrefix.

(** C1. With no ticket cached, [getTicketsByPrefix prefix], for a
    non-empty [prefix] whose last code unit is below 0xFFFF, scans the
    range from [prefix] to [prefix] with its last unit incremented, and
    returns exactly the documents whose key starts with [prefix], in
    strictly ascending key order, each tagged with its position and key;
    over the keys abc-111, abc-222, abd-333 the prefix abc yields the
    first two in that order and not the third. *)
Theorem getTicketsByPrefix_scans_prefix_range
    (db : collection) (prefix : jsstring) (c : Db.client) (lastc : Z) :
  last prefix = Some lastc ->
  (0 <= lastc < 65535)%Z ->
  Db.cached_tickets (Db.cache c) = false ->
  let r := Db.getTicketsByPrefix db prefix c in
  Db.prefix_query prefix
    = (prefix, take (length prefix - 1) prefix ++ [(lastc + 1)%Z]) /\
  Db.scans r.2 = Db.scans c ++ [Db.prefix_query prefix] /\
  (exists kds : list (jsstring * fields),
     Db.read_records (Db.heap r.2) r.1 = Some <$> imap Db.tagged kds /\
     (forall k d, (k, d) ∈ kds <-> db !! k = Some d /\ prefix `prefix_of` k) /\
     StronglySorted str_lt kds.*1) /\
  (forall d1 d2 d3,
     db = Db.three_tickets d1 d2 d3 -> prefix = js "abc" ->
     Db.read_records (Db.heap r.2) r.1
     = [Some (Db.tagged 0 (js "abc-111", d1)); Some (Db.tagged 1 (js "abc-222", d2))]).
Proof.
  intros Hlast Hc Hmiss r.
  apply last_Some in Hlast as [h ->].
  destruct (getTicketsByPrefix_miss db (h ++ [lastc]) c Hmiss) as (Hs & Hr & _).
  fold r in Hs, Hr.
  split; [|split; [done|split]].
  - rewrite prefix_query_bounds by done. f_equal. f_equal.
    rewrite length_app. simpl. replace (length h + 1 - 1) with (length h) by lia.
    by rewrite take_app_length.
  - exists (rangeScan db (Db.prefix_query (h ++ [lastc]))).
    split; [done|]. split; [|apply rangeScan_sorted].
    intros k d. rewrite elem_of_rangeScan.
    by rewrite (in_range_prefix h lastc (k, d)) by done.
  - intros d1 d2 d3 -> Hp. rewrite Hr, Hp. by rewrite rangeScan_three_tickets.
Qed.

Lemma getTicketsByPrefix_scans_prefix_range_witness :
  let r := Db.getTicketsByPrefix (Db.three_tickets ∅ ∅ ∅) (js "abc") Db.initial_client in
  Db.read_records (Db.heap r.2) r.1
  = [Some (Db.tagged 0 (js "abc-111", ∅)); Some (Db.tagged 1 (js "abc-222", ∅))].
Proof.
  intros r.
  destruct (getTicketsByPrefix_scans_prefix_range
              (Db.three_tickets ∅ ∅ ∅) (js "abc") Db.initial_client 99%Z
              eq_refl ltac:(lia) eq_refl) as (_ & _ & _ & H).
  exact (H ∅ ∅ ∅ eq_refl eq_refl).
Defined.

(** ** The ticket cache *)

Section TicketCache.

Import Db.

(** After any call the cache holds the list the call returned. *)
Lemma getTicketsByPrefix_caches db prefix c :
  ticketData (cache (getTicketsByPrefix db prefix c).2)
  = Some (getTicketsByPrefix db prefix c).1.
Proof.
  destruct (cached_tickets (cache c)) eqn:Hc.
  - rewrite getTicketsByPrefix_hit by done. simpl.
    unfold cached_tickets in Hc. by destruct (ticketData (cache c)).
  - by destruct (getTicketsByPrefix_miss db prefix c Hc) as (_ & _ & ?).
Qed.

Lemma cached_tickets_nonempty k xs :
  ticketData k = Some xs -> xs <> [] -> cached_tickets k = true.
Proof.
  unfold cached_tickets. intros -> Hxs. apply bool_decide_eq_true.
  destruct xs; [done|simpl; lia].
Qed.

Lemma cached_tickets_clear c : cached_tickets (cache (clearCachedData c)) = false.
Proof. done. Qed.

End TicketCache.

(** C3. Once a call of [getTicketsByPrefix prefix] has left a non-empty
    list in the cache, a second call with the same prefix returns that
    list and sends no range scan (the state, scan log included, is
    unchanged), whatever the store holds by then; after
    [clearCachedData] the next call with that prefix sends the range scan
    of the prefix again. *)
Theorem getTicketsByPrefix_cache_round_trip
    (db1 db2 db3 : collection) (prefix : jsstring) (c : Db.client) :
  let r1 := Db.getTicketsByPrefix db1 prefix c in
  r1.1 <> [] ->
  let r2 := Db.getTicketsByPrefix db2 prefix r1.2 in
  let r3 := Db.getTicketsByPrefix db3 prefix (Db.clearCachedData r1.2) in
  r2.1 = r1.1 /\
  Db.scans r2.2 = Db.scans r1.2 /\
  r2.2 = r1.2 /\
  Db.scans r3.2 = Db.scans r1.2 ++ [Db.prefix_query prefix].
Proof.
  intros r1 Hne r2 r3.
  assert (Db.cached_tickets (Db.cache r1.2) = true) as Hhit.
  { eapply cached_tickets_nonempty; [apply getTicketsByPrefix_caches|done]. }
  assert (Db.ticketData (Db.cache r1.2) = Some r1.1) as Htd
    by apply getTicketsByPrefix_caches.
  subst r2. rewrite getTicketsByPrefix_hit by done. rewrite Htd. simpl.
  repeat split.
  subst r3.
  by destruct (getTicketsByPrefix_miss db3 prefix (Db.clearCachedData r1.2)
                 (cached_tickets_clear _)) as (? & _).
Qed.

Lemma getTicketsByPrefix_cache_round_trip_witness :
  let db := Db.three_tickets ∅ ∅ ∅ in
  let r1 := Db.getTicketsByPrefix db (js "abc") Db.initial_client in
  let r2 := Db.getTicketsByPrefix db (js "abc") r1.2 in
  let r3 := Db.getTicketsByPrefix db (js "abc") (Db.clearCachedData r1.2) in
  r1.1 <> [] /\ r2.1 = r1.1 /\ Db.scans r2.2 = Db.scans r1.2 /\
  Db.scans r3.2 = Db.scans r1.2 ++ [Db.prefix_query (js "abc")].
Proof.
  intros db r1 r2 r3.
  assert (r1.1 <> []) as Hne by (vm_compute; discriminate).
  destruct (getTicketsByPrefix_cache_round_trip db db db (js "abc")
              Db.initial_client Hne) as (H1 & H2 & _ & H3).
  exact (conj Hne (conj H1 (conj H2 H3))).
Defined.

(** C9. The ticket cache is not keyed by prefix: once a call for [p1] has
    left a non-empty list in the cache, a call for another prefix [p2]
    returns that same list and sends no range scan; with a non-empty
    cached list the result does not depend on the prefix or on the
    store. *)
Theorem getTicketsByPrefix_ignores_prefix_when_cached
    (db1 db2 : collection) (p1 p2 : jsstring) (c : Db.client) :
  p1 <> p2 ->
  let r1 := Db.getTicketsByPrefix db1 p1 c in
  r1.1 <> [] ->
  let r2 := Db.getTicketsByPrefix db2 p2 r1.2 in
  r2.1 = r1.1 /\
  Db.scans r2.2 = Db.scans r1.2 /\
  (forall db p, Db.getTicketsByPrefix db p r1.2 = r2).
Proof.
  intros _ r1 Hne r2.
  assert (Db.cached_tickets (Db.cache r1.2) = true) as Hhit.
  { eapply cached_tickets_nonempty; [apply getTicketsByPrefix_caches|done]. }
  assert (Db.ticketData (Db.cache r1.2) = Some r1.1) as Htd
    by apply getTicketsByPrefix_caches.
  subst r2. rewrite getTicketsByPrefix_hit by done. rewrite Htd. simpl.
  repeat split. intros db p. rewrite getTicketsByPrefix_hit by done.
  by rewrite Htd.
Qed.

Lemma getTicketsByPrefix_ignores_prefix_when_cached_witness :
  let db := Db.three_tickets ∅ ∅ ∅ in
  let r1 := Db.getTicketsByPrefix db (js "abc") Db.initial_client in
  let r2 := Db.getTicketsByPrefix db (js "abd") r1.2 in
  r2.1 = r1.1 /\ Db.scans r2.2 = Db.scans r1.2.
Proof.
  intros db r1 r2.
  assert (js "abc" <> js "abd") as Hp by (vm_compute; discriminate).
  assert (r1.1 <> []) as Hne by (vm_compute; discriminate).
  destruct (getTicketsByPrefix_ignores_prefix_when_cached db db (js "abc")
              (js "abd") Db.initial_client Hp Hne) as (H1 & H2 & _).
  exact (conj H1 H2).
Defined.

(** ** The save functions *)

Section SaveToMemory.

Import Db.

Lemma get_set_slot s v k : get_slot s (set_slot s v k) = v.
Proof. by destruct s. Qed.

Lemma set_field_other l l' f v (h : heap_t) :
  l <> l' -> set_field l f v h !! l' = h !! l'.
Proof.
  intros Hne. unfold set_field. destruct (h !! l); [|done].
  by rewrite lookup_insert_ne.
Qed.

Lemma set_field_id l f v (h : heap_t) o :
  h !! l = Some o -> set_field l f v h !! l = Some (<[f := v]> o).
Proof. intros Hl. unfold set_field. rewrite Hl. by rewrite lookup_insert_eq. Qed.

(** The loop touches the objects of [rest] only. *)
Lemma save_loop_heap_other s rest : forall c l,
  l ∉ rest -> heap (save_loop s rest c) !! l = heap c !! l.
Proof.
  induction rest as [|l0 rest IH]; intros c l Hl; simpl; [done|].
  apply not_elem_of_cons in Hl as [Hne Hl].
  rewrite IH by done. simpl. by apply set_field_other.
Qed.

(** On a cached sequence [old], the loop appends the records of [data]
    and numbers them from [length old + 1] on. *)
Lemma save_loop_appends s data : forall c old,
  get_slot s (cache c) = Some old ->
  NoDup data ->
  (forall l, l ∈ data -> is_Some (heap c !! l)) ->
  get_slot s (cache (save_loop s data c)) = Some (old ++ (VRef <$> data)) /\
  scans (save_loop s data c) = scans c /\
  (forall i l, data !! i = Some l ->
     exists o, heap (save_loop s data c) !! l = Some o /\
       o !! "id" = Some (VNum (num_of_Z (Z.of_nat (length old + i) + 1)))).
Proof.
  induction data as [|l data IH]; intros c old Hold Hnd Hdom.
  - simpl. rewrite app_nil_r. repeat split; [done|]. intros i l Hi. done.
  - apply NoDup_cons in Hnd as [Hl Hnd]. cbn [save_loop].
    rewrite Hold. cbn [default].
    set (c1 := {| heap := _; cache := _; scans := _ |}).
    destruct (Hdom l) as [o Ho]; [left|].
    assert (get_slot s (cache c1) = Some (old ++ [VRef l])) as Hold1.
    { unfold c1. simpl. by rewrite get_set_slot. }
    assert (heap c1 !! l = Some (<["id" :=
              VNum (num_of_Z (Z.of_nat (length old) + 1))]> o)) as Hl1.
    { unfold c1. simpl. rewrite num_add_of_Z. by apply set_field_id. }
    destruct (IH c1 (old ++ [VRef l]) Hold1 Hnd) as (Hc & Hs & Hids).
    { intros l' Hl'. unfold c1. simpl. rewrite set_field_other by (by intros ->).
      apply Hdom. by right. }
    split; [|split].
    + rewrite Hc. by rewrite <- app_assoc.
    + by rewrite Hs.
    + intros [|i] l' Hi; simpl in Hi.
      * injection Hi as <-. rewrite save_loop_heap_other by done.
        rewrite Hl1. eexists. split; [done|].
        rewrite lookup_insert_eq. by rewrite Nat.add_0_r.
      * destruct (Hids i l' Hi) as (o' & Ho' & Hid). exists o'. split; [done|].
        rewrite Hid. rewrite length_app. simpl. do 3 f_equal. lia.
Qed.

(** With the sequence set in the cache, [save_to_memory] returns the
    cached sequence extended by the distinct records of [data], the
    i-th of them numbered [length old + i + 1]. *)
Lemma save_to_memory_appends s data c old :
  get_slot s (cache c) = Some old ->
  NoDup data ->
  (forall l, l ∈ data -> is_Some (heap c !! l)) ->
  let r := save_to_memory s data c in
  r.1 = old ++ (VRef <$> data) /\
  get_slot s (cache r.2) = Some r.1 /\
  (forall i l, data !! i = Some l ->
     exists o, heap r.2 !! l = Some o /\
       o !! "id" = Some (VNum (num_of_Z (Z.of_nat (length old + i) + 1)))).
Proof.
  intros Hold Hnd Hdom. unfold save_to_memory. rewrite Hold. simpl.
  destruct (save_loop_appends s data c old Hold Hnd Hdom) as (Hc & _ & Hids).
  rewrite Hc. simpl. done.
Qed.

End SaveToMemory.

(** C8 (where the code departs from it). On a cache whose sequence is
    unset, which is [prizeData] in the initial cache and both sequences
    after [clearCachedData], the save functions store the whole argument
    as the single element of a new array and number no record: the
    records are not appended one by one and get no id. *)
Theorem saveToMemory_unset_sequence_nests (r1 r2 : fields) :
  let h : heap_t := <[1%positive := r1]> (<[2%positive := r2]> ∅) in
  let c0 := {| Db.heap := h; Db.cache := Db.initial_cache; Db.scans := [] |} in
  let p := Db.savePrizesToMemory [1%positive; 2%positive] c0 in
  let t := Db.saveTicketsToMemory [1%positive; 2%positive] (Db.clearCachedData c0) in
  p.1 = [VArr [VRef 1%positive; VRef 2%positive]] /\
  Db.prizeData (Db.cache p.2) = Some p.1 /\
  Db.heap p.2 = h /\
  t.1 = [VArr [VRef 1%positive; VRef 2%positive]] /\
  Db.ticketData (Db.cache t.2) = Some t.1 /\
  Db.heap t.2 = h.
Proof. done. Qed.

(** ** Ticket issuance *)

Section Issuance.

Import Functions.
Context `{SB : StringBuiltins} (env : environment).

Lemma bind_run {A B} (m : M A) (k : A -> M B) w :
  (m ≫= k) w =
    match m w with
    | (Returned a, w') => k a w'
    | (Thrown e, w') => (Thrown e, w')
    | (Spinning, w') => (Spinning, w')
    end.
Proof. done. Qed.

Lemma hex_digit_upper d :
  (0 <= d < 16)%Z ->
  is_ascii (hex_digit d) /\ is_upper_hex (ascii_upper (hex_digit d)).
Proof.
  intros Hd. unfold hex_digit, is_ascii, is_upper_hex, ascii_upper.
  destruct (Z.ltb_spec d 10).
  - replace (97 <=? 48 + d)%Z with false by (symmetry; apply Z.leb_gt; lia).
    simpl. lia.
  - replace (97 <=? 87 + d)%Z with true by (symmetry; apply Z.leb_le; lia).
    replace (87 + d <=? 122)%Z with true by (symmetry; apply Z.leb_le; lia).
    simpl. lia.
Qed.

Lemma byte_range (b : Byte.byte) : (0 <= Z.of_N (Byte.to_N b) < 256)%Z.
Proof. pose proof (Byte.to_N_bounded b). lia. Qed.

(** Three random bytes render as six uppercase hexadecimal digits. *)
Lemma suffix_upper_hex b1 b2 b3 :
  length (toUpperCase (toString_hex [b1; b2; b3])) = 6 /\
  Forall is_upper_hex (toUpperCase (toString_hex [b1; b2; b3])).
Proof.
  pose proof (byte_range b1). pose proof (byte_range b2). pose proof (byte_range b3).
  assert (forall b, (0 <= Z.of_N (Byte.to_N b) < 256)%Z ->
            (0 <= Z.of_N (Byte.to_N b) / 16 < 16)%Z /\
            (0 <= Z.of_N (Byte.to_N b) mod 16 < 16)%Z) as Hn.
  { intros b Hb. split; [|apply Z.mod_pos_bound; lia].
    split; [apply Z.div_pos; lia|apply Z.div_lt_upper_bound; lia]. }
  destruct (Hn b1) as [? ?]; [done|].
  destruct (Hn b2) as [? ?]; [done|].
  destruct (Hn b3) as [? ?]; [done|].
  rewrite toUpperCase_ascii.
  - split; [done|]. simpl.
    repeat (apply Forall_cons; split; [by apply hex_digit_upper|]). constructor.
  - simpl. repeat (apply Forall_cons; split; [by apply hex_digit_upper|]). constructor.
Qed.

Lemma suffix_upper_hex_buffer b :
  length (toUpperCase (toString_hex (buffer b))) = 6 /\
  Forall is_upper_hex (toUpperCase (toString_hex (buffer b))).
Proof. destruct b as [[b1 b2] b3]. apply suffix_upper_hex. Qed.

Lemma sample_code_is_code tag k : is_code tag (sample_code env tag k).
Proof.
  exists (toUpperCase (toString_hex (buffer (random env k)))).
  split; [done|]. apply suffix_upper_hex_buffer.
Qed.

Lemma random_suffix_run tag w :
  exists w',
    (suffix ← random_suffix env; resample env 0 tag (make_code tag suffix)) w
      = resample env 0 tag (sample_code env tag (drawn w)) w' /\
    (forall fuel,
       (suffix ← random_suffix env; resample env fuel tag (make_code tag suffix)) w
       = resample env fuel tag (sample_code env tag (drawn w)) w') /\
    users w' = users w /\ ticket_info w' = ticket_info w /\
    inflight w' = inflight w /\ trace w' = trace w /\ reads w' = reads w /\
    drawn w' = S (drawn w).
Proof. eexists. repeat split. Qed.

Lemma ticket_exists_run code w :
  exists w',
    ticket_exists env code w = (Returned (doc_exists (ticket_info w') code), w') /\
    trace w' = trace w ++ [Checked code (doc_exists (ticket_info w') code)] /\
    users w' = users w /\ drawn w' = drawn w /\
    ticket_info w' = ticket_info (settle env w).2.
Proof.
  exists (ticket_exists env code w).2.
  unfold ticket_exists, mbind, M_bind, bind, settle, get, log, ret. simpl. done.
Qed.

(** The store only gains documents while a call runs. *)
Lemma apply_writes_mono (c : collection) ws x :
  is_Some (c !! x) -> is_Some (foldl apply_write c ws !! x).
Proof.
  revert c. induction ws as [|kd ws IH]; intros c Hx; simpl; [done|].
  apply IH. unfold apply_write. destruct (decide (kd.1 = x)) as [->|Hne].
  - rewrite lookup_insert_eq. by eexists.
  - by rewrite lookup_insert_ne.
Qed.

Lemma settle_mono w x :
  is_Some (ticket_info w !! x) -> is_Some (ticket_info (settle env w).2 !! x).
Proof. apply apply_writes_mono. Qed.

Lemma resample_mono fuel : forall tag code w x,
  is_Some (ticket_info w !! x) ->
  is_Some (ticket_info (resample env fuel tag code w).2 !! x).
Proof.
  induction fuel as [|fuel IH]; intros tag code w x Hx; cbn [resample];
    rewrite bind_run;
    destruct (ticket_exists_run code w) as (w1 & -> & _ & _ & _ & Hti);
    apply settle_mono in Hx; rewrite <- Hti in Hx;
    destruct (doc_exists (ticket_info w1) code); try done.
  rewrite bind_run. by apply IH.
Qed.

(** The duplicate-avoiding loop, entered with the code of sample [k]:
    every code found in the store is dropped for the code of the next
    sample, and the loop ends on the first code the store does not hold. *)
Lemma resample_trace fuel : forall tag k w,
  drawn w = S k ->
  exists n,
    let r := resample env fuel tag (sample_code env tag k) w in
    users r.2 = users w /\
    match r.1 with
    | Returned c =>
        (n <= fuel)%nat /\
        c = sample_code env tag (k + n) /\
        trace r.2 = trace w ++ collisions (sample_code env tag <$> seq k n)
                            ++ [Checked c false] /\
        ticket_info r.2 !! c = None /\
        Forall (fun x => is_Some (ticket_info r.2 !! x))
          (sample_code env tag <$> seq k n) /\
        drawn r.2 = S (k + n)
    | Spinning =>
        n = S fuel /\
        trace r.2 = trace w ++ collisions (sample_code env tag <$> seq k n)
    | Thrown _ => False
    end.
Proof.
  induction fuel as [|fuel IH]; intros tag k w Hk; cbn [resample]; rewrite bind_run;
    destruct (ticket_exists_run (sample_code env tag k) w)
      as (w1 & -> & Ht & Hu & Hd & _);
    destruct (doc_exists (ticket_info w1) (sample_code env tag k)) eqn:Hex.
  - exists 1%nat. simpl. by rewrite Ht.
  - exists 0%nat. simpl. rewrite Ht, Nat.add_0_r.
    repeat split; try done; try congruence.
    apply bool_decide_eq_false in Hex. by apply eq_None_not_Some.
  - destruct (random_suffix_run tag w1) as (w2 & _ & Hrun & Hu2 & Hti2 & _ & Ht2 & _ & Hd2).
    rewrite Hrun.
    replace (drawn w1) with (S k) by congruence.
    destruct (IH tag (S k) w2) as (n & Hu3 & Hres); [congruence|].
    pose proof (resample_mono fuel tag (sample_code env tag (S k)) w2
                  (sample_code env tag k)) as Hmono.
    exists (S n). cbv zeta in *. split; [congruence|].
    destruct (resample env fuel tag (sample_code env tag (S k)) w2) as [o w3].
    simpl in *. destruct o.
    + destruct Hres as (? & -> & -> & ? & Hall & ->). rewrite Ht2, Ht.
      replace (k + S n)%nat with (S k + n)%nat by lia.
      split; [lia|]. split; [done|]. split; [by rewrite <- !app_assoc|].
      split; [done|]. split; [|done].
      constructor; [|done]. apply Hmono. rewrite Hti2.
      by apply bool_decide_eq_true in Hex.
    + done.
    + destruct Hres as (-> & ->). rewrite Ht2, Ht. split; [done|].
      by rewrite <- !app_assoc.
  - exists 0%nat. simpl. rewrite Ht, Nat.add_0_r.
    repeat split; try done; try lia; try congruence.
    apply bool_decide_eq_false in Hex. by apply eq_None_not_Some.
Qed.

(** The code generator: it draws samples [drawn w], [drawn w + 1], ...
    and returns the code of the first one the store does not hold. *)
Lemma unique_code_trace fuel tag w :
  exists n,
    let r := unique_code env fuel tag w in
    users r.2 = users w /\
    match r.1 with
    | Returned c =>
        (n <= fuel)%nat /\
        c = sample_code env tag (drawn w + n) /\
        trace r.2 = trace w ++ collisions (sample_code env tag <$> seq (drawn w) n)
                            ++ [Checked c false] /\
        ticket_info r.2 !! c = None /\
        Forall (fun x => is_Some (ticket_info r.2 !! x))
          (sample_code env tag <$> seq (drawn w) n) /\
        drawn r.2 = S (drawn w + n)
    | Spinning =>
        n = S fuel /\
        trace r.2 = trace w ++ collisions (sample_code env tag <$> seq (drawn w) n)
    | Thrown _ => False
    end.
Proof.
  unfold unique_code.
  destruct (random_suffix_run tag w) as (w1 & _ & -> & Hu & _ & _ & Ht & _ & Hd).
  destruct (resample_trace fuel tag (drawn w) w1 Hd) as (n & Hres).
  exists n. cbv zeta in *. by rewrite <- Hu, <- Ht.
Qed.

Lemma Forall_sample_codes tag k n :
  Forall (is_code tag) (sample_code env tag <$> seq k n).
Proof. apply Forall_fmap, Forall_forall. intros j _. apply sample_code_is_code. Qed.

Ltac loop_done :=
  repeat split; try done; try (intros ? Hj; simpl in Hj; lia).

(** The issuing loop: its trace is a sequence of rounds, each ending in
    a check that did not find the code followed by the write of that
    code; it returns the mapping of the issued codes, or is still
    resampling. *)
Lemma issue_loop_trace fuel : forall retries i amount tag ts email memo tickets w,
  exists atts tailc,
    let r := issue_loop env fuel retries i amount tag ts email memo tickets w in
    trace r.2 = trace w ++ flat_map attempt_events atts ++ collisions tailc /\
    users r.2 = users w /\
    Forall (round_ok tag (ticketData ts email memo)) atts /\
    Forall (is_code tag) tailc /\
    (forall j, (j < length atts)%nat ->
       num_ltb (num_of_Z (i + Z.of_nat j)) (ToNumber amount) = true) /\
    match r.1 with
    | Returned t =>
        tailc = [] /\ t = collect_tickets tickets atts /\
        num_ltb (num_of_Z (i + Z.of_nat (length atts))) (ToNumber amount) = false
    | Spinning =>
        length tailc = S retries \/
        (tailc = [] /\ length atts = fuel /\
         num_ltb (num_of_Z (i + Z.of_nat (length atts))) (ToNumber amount) = true)
    | Thrown _ => False
    end.
Proof.
  induction fuel as [|fuel IH]; intros retries i amount tag ts email memo tickets w;
    cbn [issue_loop];
    destruct (num_ltb (num_of_Z i) (ToNumber amount)) eqn:Hlt.
  - exists [], []. simpl. rewrite !app_nil_r, Z.add_0_r. loop_done. by right.
  - exists [], []. simpl. rewrite !app_nil_r, Z.add_0_r. loop_done.
  - rewrite bind_run.
    destruct (unique_code_trace retries tag w) as (n & Hu & Hres).
    pose proof (Forall_sample_codes tag (drawn w) n) as Hcoll.
    assert (length (sample_code env tag <$> seq (drawn w) n) = n) as Hlen
      by by rewrite length_fmap, length_seq.
    set (coll := sample_code env tag <$> seq (drawn w) n) in *.
    destruct (unique_code env retries tag w) as [[c| |] w1]; simpl in Hu, Hres.
    + destruct Hres as (_ & Hc & Ht & _ & _ & _).
      assert (is_code tag c) as Hc' by (rewrite Hc; apply sample_code_is_code).
      rewrite bind_run. cbn [set_ticket].
      set (w2 := {| users := users w1; ticket_info := _; inflight := _;
                    trace := _; reads := _; drawn := _ |}).
      destruct (IH retries (i + 1)%Z amount tag ts email memo
                  (<[c := ticketData ts email memo]> tickets) w2)
        as (atts & tailc & Ht2 & Hu2 & Hatts & Htail & Hiter & Hout).
      exists ({| collided := coll; issued := c;
                 written := ticketData ts email memo |} :: atts), tailc.
      cbv zeta in *. rewrite Ht2, Hu2. unfold w2 at 1 2. cbn [trace users].
      rewrite Ht. split; [|split; [done|split; [|split; [done|split]]]].
      * unfold attempt_events at 2. cbn [flat_map collided issued written].
        rewrite <- !app_assoc. done.
      * by constructor.
      * intros [|j] Hj; [by rewrite Z.add_0_r|].
        replace (i + Z.of_nat (S j))%Z with (i + 1 + Z.of_nat j)%Z by lia.
        apply Hiter. simpl in Hj. lia.
      * replace (i + Z.of_nat (length (_ :: atts)))%Z
          with (i + 1 + Z.of_nat (length atts))%Z by (simpl; lia).
        destruct (issue_loop env fuel retries (i + 1) amount tag ts email memo
                    (<[c := ticketData ts email memo]> tickets) w2).1; [| done |].
        -- by destruct Hout as (-> & -> & Hend).
        -- destruct Hout as [Hout|(-> & <- & Hend)]; [by left|by right].
    + done.
    + destruct Hres as (-> & Ht). exists [], coll. simpl.
      rewrite Ht. loop_done. by left.
  - exists [], []. simpl. rewrite !app_nil_r, Z.add_0_r. loop_done.
Qed.

End Issuance.

Section GenerateTickets.

Import Functions.
Context `{SB : StringBuiltins} (env : environment).

Lemma settle_frame w :
  users (settle env w).2 = users w /\
  trace (settle env w).2 = trace w /\
  drawn (settle env w).2 = drawn w.
Proof. done. Qed.

Lemma read_shopTag_run uid w :
  read_shopTag env uid w =
    (match users w !! uid with
     | Some d => Returned (shopTag d)
     | None => Thrown unknown
     end, (settle env w).2).
Proof.
  unfold read_shopTag, mbind, M_bind, bind, get. simpl.
  by destruct (users w !! uid).
Qed.

(** The keys of the returned mapping are codes that were issued. *)
Lemma collect_tickets_lookup atts : forall tickets code d,
  collect_tickets tickets atts !! code = Some d ->
  tickets !! code = Some d \/
  exists a, a ∈ atts /\ issued a = code /\ written a = d.
Proof.
  induction atts as [|a atts IH]; intros tickets code d; simpl; [by left|].
  intros H. apply IH in H as [H|(a' & Ha' & ?)].
  - destruct (decide (issued a = code)) as [<-|Hne].
    + rewrite lookup_insert_eq in H. injection H as <-.
      right. exists a. split; [left|done].
    + rewrite lookup_insert_ne in H by done. by left.
  - right. exists a'. split; [by right|done].
Qed.

(** The trace of a call of [generateTickets] is a sequence of rounds;
    without an authenticated caller that has a user document, or with a
    rejected amount, there is no round at all. *)
Lemma generateTickets_rounds fuel data ctx w :
  exists atts tailc,
    let r := generateTickets env fuel data ctx w in
    trace r.2 = trace w ++ flat_map attempt_events atts ++ collisions tailc /\
    users r.2 = users w /\
    (forall uid ud, auth ctx = Some uid -> users w !! uid = Some ud ->
       Forall (round_ok (shopTag ud)
                 (ticketData VServerTimestamp (email data) (memo data))) atts /\
       Forall (is_code (shopTag ud)) tailc) /\
    (forall t, r.1 = Returned t -> tailc = [] /\ t = collect_tickets ∅ atts).
Proof.
  unfold generateTickets. rewrite bind_run. unfold checkAuthentication.
  destruct (auth ctx) as [uid|]; simpl.
  2:{ exists [], []. simpl. rewrite app_nil_r. repeat split; try done. }
  destruct (num_gtb (ToNumber (amount data)) (num_of_Z 10)
            || num_ltb (ToNumber (amount data)) (num_of_Z 1)).
  { exists [], []. simpl. rewrite app_nil_r. repeat split; try done. }
  rewrite bind_run, read_shopTag_run.
  destruct (settle_frame w) as (Hu & Ht & _).
  destruct (users w !! uid) as [ud|] eqn:Hud.
  2:{ exists [], []. simpl. rewrite app_nil_r. repeat split; try done. }
  destruct (issue_loop_trace env fuel fuel 0 (amount data) (shopTag ud)
              VServerTimestamp (email data) (memo data) ∅ (settle env w).2)
    as (atts & tailc & Htr & Hus & Hatts & Htail & _ & Hout).
  exists atts, tailc. cbv zeta in *. rewrite Htr, Hus, Ht, Hu.
  split; [done|]. split; [done|]. split.
  - intros uid' ud' [= <-] Hud'. by simplify_eq.
  - intros t Hr. rewrite Hr in Hout. by destruct Hout as (? & ? & _).
Qed.

Lemma num_outside n :
  outside_1_10 n ->
  num_gtb n (num_of_Z 10) || num_ltb n (num_of_Z 1) = true.
Proof.
  destruct n as [| | |q]; simpl; try done.
  unfold num_gtb, num_ltb, num_of_Z. intros [H|H]; apply orb_true_iff.
  - right. apply negb_true_iff. apply not_true_is_false.
    rewrite Qle_bool_iff. unfold inject_Z. lra.
  - left. apply negb_true_iff. apply not_true_is_false.
    rewrite Qle_bool_iff. unfold inject_Z. lra.
Qed.

Lemma num_within n :
  within_1_10 n ->
  num_gtb n (num_of_Z 10) || num_ltb n (num_of_Z 1) = false.
Proof.
  destruct n as [| | |q]; simpl; try done.
  unfold num_gtb, num_ltb, num_of_Z. intros [H1 H2]. apply orb_false_iff.
  split; apply negb_false_iff, Qle_bool_iff; unfold inject_Z; lra.
Qed.




End GenerateTickets.

(** C2. The code generator draws the samples of the random source one
    after the other: each code the existence check finds in
    ["ticket-info"] is dropped for the code of the next sample, and the
    code it returns is the first whose check did not find it (the store
    does not hold it when the generator returns, and it is none of the
    codes that were found); it never throws, and it goes on only while
    every sample so far collided. In a call of [generateTickets] every
    write is preceded, with no other store access in between, by the
    check that did not find the written code, and the returned mapping
    holds written codes only. *)
Theorem generateTickets_never_issues_found_code
    `{SB : StringBuiltins} (env : Functions.environment) (fuel : nat)
    (tag : jsstring) (data : Functions.request) (ctx : Functions.context)
    (w : Functions.server) :
  (exists n,
     let g := Functions.unique_code env fuel tag w in
     match g.1 with
     | Functions.Returned c =>
         (n <= fuel)%nat /\
         c = Functions.sample_code env tag (Functions.drawn w + n) /\
         Functions.trace g.2
         = Functions.trace w
           ++ Functions.collisions
                (Functions.sample_code env tag <$> seq (Functions.drawn w) n)
           ++ [Functions.Checked c false] /\
         Functions.ticket_info g.2 !! c = None /\
         c ∉ Functions.sample_code env tag <$> seq (Functions.drawn w) n
     | Functions.Spinning =>
         n = S fuel /\
         Functions.trace g.2
         = Functions.trace w
           ++ Functions.collisions
                (Functions.sample_code env tag <$> seq (Functions.drawn w) n)
     | Functions.Thrown _ => False
     end) /\
  (exists atts tailc,
     let r := Functions.generateTickets env fuel data ctx w in
     Functions.trace r.2
     = Functions.trace w ++ flat_map Functions.attempt_events atts
                         ++ Functions.collisions tailc /\
     (forall t, r.1 = Functions.Returned t ->
        tailc = [] /\
        forall code d, t !! code = Some d ->
          exists a, a ∈ atts /\ Functions.issued a = code /\ Functions.written a = d)).
Proof.
  split.
  - destruct (unique_code_trace env fuel tag w) as (n & _ & H).
    exists n. cbv zeta in *.
    destruct (Functions.unique_code env fuel tag w).1; [|done..].
    destruct H as (? & ? & ? & Hnone & Hall & _).
    repeat split; try done.
    intros Hin. rewrite Forall_forall in Hall. apply Hall in Hin.
    rewrite Hnone in Hin. by destruct Hin.
  - destruct (generateTickets_rounds env fuel data ctx w)
      as (atts & tailc & Ht & _ & _ & Hr).
    exists atts, tailc. cbv zeta in *. split; [done|].
    intros t Hret. destruct (Hr t Hret) as (-> & ->). split; [done|].
    intros code d Hl. apply collect_tickets_lookup in Hl as [Hl|Hl]; [|done].
    by rewrite lookup_empty in Hl.
Qed.

(** C7. For a caller whose shop tag is [tag], every ticket written by
    [generateTickets] is keyed by [tag], a dash and six uppercase
    hexadecimal digits, and its document has [redeemed] and [shipped]
    false and [orderID] and [prizeID] null; the tickets returned are
    among those written. *)
Theorem generateTickets_ticket_shape
    `{SB : StringBuiltins} (env : Functions.environment) (fuel : nat)
    (data : Functions.request) (ctx : Functions.context)
    (w : Functions.server) (uid : jsstring) (ud : Functions.userDoc) :
  Functions.auth ctx = Some uid ->
  Functions.users w !! uid = Some ud ->
  let r := Functions.generateTickets env fuel data ctx w in
  exists new,
    Functions.trace r.2 = Functions.trace w ++ new /\
    (forall code d, Functions.SetTicket code d ∈ new ->
       (exists suffix,
          code = Functions.shopTag ud ++ js "-" ++ suffix /\
          length suffix = 6 /\
          Forall Functions.is_upper_hex suffix) /\
       d !! "redeemed" = Some (VBool false) /\
       d !! "shipped" = Some (VBool false) /\
       d !! "orderID" = Some VNull /\
       d !! "prizeID" = Some VNull /\
       d !! "email" = Some (Functions.email data) /\
       d !! "memo" = Some (Functions.memo data) /\
       d !! "createdAt" = Some VServerTimestamp) /\
    (forall t code d, r.1 = Functions.Returned t -> t !! code = Some d ->
       Functions.SetTicket code d ∈ new).
Proof.
  intros Hauth Hud r.
  destruct (generateTickets_rounds env fuel data ctx w)
    as (atts & tailc & Ht & _ & Hok & Hr).
  destruct (Hok uid ud Hauth Hud) as (Hatts & _).
  exists (flat_map Functions.attempt_events atts ++ Functions.collisions tailc).
  split; [done|]. split.
  - intros code d Hin. apply elem_of_app in Hin as [Hin|Hin].
    2:{ unfold Functions.collisions in Hin.
        apply list_elem_of_fmap in Hin as (? & ? & _). done. }
    apply list_elem_of_In, in_flat_map in Hin as (a & Ha & Hin).
    apply list_elem_of_In in Ha, Hin.
    rewrite Forall_forall in Hatts. destruct (Hatts a Ha) as (Hc & _ & Hd).
    unfold Functions.attempt_events in Hin.
    apply elem_of_app in Hin as [Hin|Hin].
    { unfold Functions.collisions in Hin.
      apply list_elem_of_fmap in Hin as (? & ? & _). done. }
    apply elem_of_cons in Hin as [Hin|Hin]; [done|].
    apply list_elem_of_singleton in Hin. injection Hin as -> ->.
    split; [exact Hc|]. rewrite Hd. done.
  - intros t code d Hret Hl. destruct (Hr t Hret) as (-> & ->).
    apply collect_tickets_lookup in Hl as [Hl|(a & Ha & <- & <-)].
    { by rewrite lookup_empty in Hl. }
    apply elem_of_app. left. apply list_elem_of_In, in_flat_map.
    exists a. split; [by apply list_elem_of_In|].
    apply list_elem_of_In. unfold Functions.attempt_events.
    apply elem_of_app. right. right. left.
Qed.

Lemma generateTickets_ticket_shape_witness :
  let r := Functions.generateTickets (SB := ascii_builtins) Functions.alice_env 5
             (Functions.alice_request (PNum (num_of_Z 3)))
             Functions.alice_ctx Functions.alice_server in
  Functions.written_codes (Functions.trace r.2)
  = [js "alice-A1B2C3"; js "alice-00FF10"; js "alice-7E5D09"] /\
  forall code d, Functions.SetTicket code d ∈ Functions.trace r.2 ->
    (exists suffix, code = js "alice" ++ js "-" ++ suffix /\
                    length suffix = 6 /\ Forall Functions.is_upper_hex suffix) /\
    d !! "redeemed" = Some (VBool false) /\ d !! "shipped" = Some (VBool false).
Proof.
  intros r. split; [vm_compute; reflexivity|].
  destruct (generateTickets_ticket_shape (SB := ascii_builtins) Functions.alice_env 5
              (Functions.alice_request (PNum (num_of_Z 3)))
              Functions.alice_ctx Functions.alice_server Functions.alice_uid
              {| Functions.createdAt := VServerTimestamp; Functions.shopTag := js "alice" |}
              eq_refl ltac:(vm_compute; reflexivity)) as (new & Ht & Hnew & _).
  intros code d Hin. fold r in Ht. rewrite Ht in Hin.
  destruct (Hnew code d Hin) as (Hc & Hr & Hs & _).
  exact (conj Hc (conj Hr Hs)).
Defined.

(** In the scenario the second sample repeats the first, whose write has
    reached the store by then: the check finds it and the code is dropped
    for the next sample. *)
Example alice_collision_resampled :
  let r := Functions.generateTickets (SB := ascii_builtins) Functions.alice_env 5
             (Functions.alice_request (PNum (num_of_Z 2)))
             Functions.alice_ctx Functions.alice_server in
  Functions.found_codes (Functions.trace r.2) = [js "alice-A1B2C3"] /\
  Functions.written_codes (Functions.trace r.2) = [js "alice-A1B2C3"; js "alice-00FF10"].
Proof. vm_compute. done. Qed.

(** C4. Whatever the caller and the state, an amount outside 1..10 makes
    [generateTickets] throw with the state untouched (no write is sent);
    for an authenticated caller the error is [out-of-range]. An amount
    within 1..10 is never answered with [out-of-range]. *)
Theorem generateTickets_amount_validation
    `{SB : StringBuiltins} (env : Functions.environment) (fuel : nat)
    (data : Functions.request) (ctx : Functions.context) (w : Functions.server) :
  let r := Functions.generateTickets env fuel data ctx w in
  (Functions.outside_1_10 (ToNumber (Functions.amount data)) ->
     r.2 = w /\
     (is_Some (Functions.auth ctx) -> r.1 = Functions.Thrown Functions.out_of_range) /\
     (Functions.auth ctx = None -> r.1 = Functions.Thrown Functions.unauthenticated)) /\
  (Functions.within_1_10 (ToNumber (Functions.amount data)) ->
     r.1 <> Functions.Thrown Functions.out_of_range).
Proof.
  intros r. subst r. unfold Functions.generateTickets.
  rewrite bind_run. unfold Functions.checkAuthentication.
  split.
  - intros Hout. rewrite (num_outside _ Hout).
    destruct (Functions.auth ctx); simpl.
    + split; [done|]. split; [done|]. done.
    + split; [done|]. split; [|done]. by intros [? ?].
  - intros Hin. rewrite (num_within _ Hin).
    destruct (Functions.auth ctx) as [uid|]; simpl; [|done].
    rewrite bind_run, read_shopTag_run.
    destruct (Functions.users w !! uid) as [ud|]; [|done].
    destruct (issue_loop_trace env fuel fuel 0 (Functions.amount data)
                (Functions.shopTag ud) VServerTimestamp (Functions.email data)
                (Functions.memo data) ∅ (Functions.settle env w).2)
      as (atts & tailc & _ & _ & _ & _ & _ & Hres).
    cbv zeta in Hres. intros Heq. by rewrite Heq in Hres.
Qed.

Lemma generateTickets_amount_validation_witness :
  let run n := Functions.generateTickets (SB := ascii_builtins) Functions.alice_env 5
                 (Functions.alice_request (PNum (num_of_Z n)))
                 Functions.alice_ctx Functions.alice_server in
  ((run 0%Z).1 = Functions.Thrown Functions.out_of_range /\
   (run 0%Z).2 = Functions.alice_server) /\
  ((run 11%Z).1 = Functions.Thrown Functions.out_of_range /\
   (run 11%Z).2 = Functions.alice_server) /\
  ((run (-4)%Z).1 = Functions.Thrown Functions.out_of_range /\
   (run (-4)%Z).2 = Functions.alice_server) /\
  (run 10%Z).1 <> Functions.Thrown Functions.out_of_range.
Proof.
  intros run.
  pose (thm n := generateTickets_amount_validation (SB := ascii_builtins)
                   Functions.alice_env 5 (Functions.alice_request (PNum (num_of_Z n)))
                   Functions.alice_ctx Functions.alice_server).
  destruct (thm 0%Z) as [H0 _]. destruct H0 as (Hw0 & He0 & _).
  { left. reflexivity. }
  destruct (thm 11%Z) as [H11 _]. destruct H11 as (Hw11 & He11 & _).
  { right. reflexivity. }
  destruct (thm (-4)%Z) as [Hm4 _]. destruct Hm4 as (Hwm4 & Hem4 & _).
  { left. reflexivity. }
  destruct (thm 10%Z) as [_ H10].
  assert (is_Some (Functions.auth Functions.alice_ctx)) as Hauth by (by eexists).
  assert (Functions.within_1_10
            (ToNumber (H := ascii_builtins)
               (Functions.amount (Functions.alice_request (PNum (num_of_Z 10))))))
    as Hin by (split; discriminate).
  exact (conj (conj (He0 Hauth) Hw0)
           (conj (conj (He11 Hauth) Hw11)
              (conj (conj (Hem4 Hauth) Hwm4) (H10 Hin)))).
Defined.

(** C10. When the amount coerces to NaN (the property is missing or
    undefined, or it is NaN), the range check lets it through: for an
    authenticated caller with a user document the call returns the empty
    mapping, and apart from serving the read of that document the state,
    trace of writes included, is as before. *)
Theorem generateTickets_NaN_amount_passes
    `{SB : StringBuiltins} (env : Functions.environment) (fuel : nat)
    (data : Functions.request) (ctx : Functions.context) (w : Functions.server)
    (uid : jsstring) (ud : Functions.userDoc) :
  Functions.auth ctx = Some uid ->
  Functions.users w !! uid = Some ud ->
  ToNumber (Functions.amount data) = NaN ->
  let r := Functions.generateTickets env fuel data ctx w in
  r.1 = Functions.Returned ∅ /\
  r.2 = (Functions.settle env w).2 /\
  Functions.trace r.2 = Functions.trace w /\
  Functions.users r.2 = Functions.users w.
Proof.
  intros Hauth Hud Hnan r. subst r. unfold Functions.generateTickets.
  rewrite bind_run. unfold Functions.checkAuthentication. rewrite Hauth, Hnan.
  simpl. rewrite bind_run, read_shopTag_run, Hud.
  destruct fuel; cbn [Functions.issue_loop]; rewrite Hnan; done.
Qed.

Lemma generateTickets_NaN_amount_passes_witness :
  let run a := Functions.generateTickets (SB := ascii_builtins) Functions.alice_env 5
                 (Functions.alice_request a)
                 Functions.alice_ctx Functions.alice_server in
  ((run PUndefined).1 = Functions.Returned ∅ /\
   Functions.trace (run PUndefined).2 = []) /\
  ((run (PNum NaN)).1 = Functions.Returned ∅ /\
   Functions.trace (run (PNum NaN)).2 = []).
Proof.
  intros run.
  pose (thm a := generateTickets_NaN_amount_passes (SB := ascii_builtins)
                   Functions.alice_env 5 (Functions.alice_request a)
                   Functions.alice_ctx Functions.alice_server Functions.alice_uid
                   {| Functions.createdAt := VServerTimestamp;
                      Functions.shopTag := js "alice" |}
                   eq_refl ltac:(vm_compute; reflexivity)).
  destruct (thm PUndefined eq_refl) as (Hu1 & _ & Hu2 & _).
  destruct (thm (PNum NaN) eq_refl) as (Hn1 & _ & Hn2 & _).
  exact (conj (conj Hu1 Hu2) (conj Hn1 Hn2)).
Defined.

(** ** Account bootstrap *)

Section Account.

Import Functions.
Context `{SB : StringBuiltins} (env : environment).

(** [split_head sep s] is the part of [s] before the first [sep]. *)
Lemma split_head_spec sep s :
(sep ∉ split_head sep s) /\
  (s = split_head sep s \/ exists rest, s = split_head sep s ++ sep :: rest).
Proof.
  induction s as [|c s [IH1 IH2]]; simpl.
  - split; [by intros ?%elem_of_nil|by left].
  - destruct (Z.eqb_spec c sep) as [->|Hne].
    + split; [by intros ?%elem_of_nil|]. right. by exists s.
    + split.
      * intros [?|?]%elem_of_cons; [congruence|done].
      * destruct IH2 as [IH2|[rest IH2]]; [left|right; exists rest];
          simpl; by f_equal.
Qed.

(** The default tag is cut from the first five units of the local part. *)
Lemma default_tag_prefix (emailPrefix : jsstring) :
  substring0 emailPrefix
    (if (5 <=? str_length emailPrefix)%Z then 5%Z else str_length emailPrefix)
  = take (min 5 (length emailPrefix)) emailPrefix.
Proof.
  unfold substring0, str_length. f_equal.
  destruct (Z.leb_spec 5 (Z.of_nat (length emailPrefix))); lia.
Qed.

Lemma accountExists_run uid w :
  accountExists env uid w = (Returned (doc_exists (users w) uid), (settle env w).2).
Proof. done. Qed.

Lemma initUserAccount_existing uid email w :
  is_Some (users w !! uid) ->
  initUserAccount env uid email w = (Returned false, (settle env w).2).
Proof.
  intros Hex. unfold initUserAccount. rewrite bind_run, accountExists_run.
  unfold doc_exists. by rewrite bool_decide_eq_true_2.
Qed.

Lemma initUserAccount_new uid email w :
  users w !! uid = None ->
  let local := split_head 64 email in
  let doc := {| createdAt := VServerTimestamp;
                shopTag := toLowerCase (take (min 5 (length local)) local) |} in
  (initUserAccount env uid (Some email) w).1 = Returned true /\
  users (initUserAccount env uid (Some email) w).2 = <[uid := doc]> (users w) /\
  trace (initUserAccount env uid (Some email) w).2 = trace w ++ [SetUser uid doc] /\
  ticket_info (initUserAccount env uid (Some email) w).2
    = ticket_info (settle env w).2.
Proof.
  intros Hnone local doc. unfold initUserAccount.
  rewrite bind_run, accountExists_run.
  unfold doc_exists. rewrite bool_decide_eq_false_2 by (rewrite Hnone; by intros [? ?]).
  cbv zeta. rewrite default_tag_prefix. done.
Qed.

End Account.

(** C5. When [initUserAccount] creates the account, the shop tag it
    writes is the lowercased prefix, of length min(5, length of the local
    part), of the local part of the e-mail, the local part being what
    precedes the first '@' (the whole string when there is none); it is a
    function of the e-mail alone. On an ASCII local part the tag has that
    same length. *)
Theorem initUserAccount_default_shop_tag
    `{SB : StringBuiltins} (env : Functions.environment)
    (uid email : jsstring) (w : Functions.server) :
  Functions.users w !! uid = None ->
  let local := split_head 64 email in
  let cut := take (min 5 (length local)) local in
  let r := Functions.initUserAccount env uid (Some email) w in
((64%Z ∉ local) /\ (email = local \/ exists rest, email = local ++ 64%Z :: rest)) /\
  (length cut = min 5 (length local) /\ cut `prefix_of` local) /\
  (exists doc, Functions.users r.2 !! uid = Some doc /\
               Functions.shopTag doc = toLowerCase cut) /\
  (Forall is_ascii local ->
     toLowerCase cut = ascii_lower <$> cut /\
     length (toLowerCase cut) = min 5 (length local)).
Proof.
  intros Hnone local cut r.
  split; [apply split_head_spec|].
  assert (length cut = min 5 (length local)) as Hlen.
  { unfold cut. rewrite length_take. lia. }
  split; [split; [done|apply prefix_take]|].
  split.
  - destruct (initUserAccount_new env uid email w Hnone) as (_ & Hu & _).
    fold r in Hu. rewrite Hu. eexists. split; [apply lookup_insert_eq|done].
  - intros Hascii. rewrite toLowerCase_ascii.
    + by rewrite length_fmap.
    + unfold cut. by apply Forall_take.
Qed.

Lemma initUserAccount_default_shop_tag_witness :
  let r := Functions.initUserAccount (SB := ascii_builtins) Functions.alice_env
             Functions.alice_uid (Some (js "Bob.Smith@Example.com"))
             Functions.empty_server in
  exists doc, Functions.users r.2 !! Functions.alice_uid = Some doc /\
              Functions.shopTag doc = js "bob.s".
Proof.
  intros r.
  destruct (initUserAccount_default_shop_tag (SB := ascii_builtins)
              Functions.alice_env Functions.alice_uid (js "Bob.Smith@Example.com")
              Functions.empty_server eq_refl) as (_ & _ & (doc & Hd & Ht) & _).
  exists doc. split; [exact Hd|]. rewrite Ht. vm_compute. reflexivity.
Defined.

(** C5, as stated for every e-mail string, fails where lowercasing
    lengthens the prefix: for the e-mail U+0130 "STANBUL@x.com" the local
    part has 8 units, the prefix of 5 units lowercases to the 6 units
    U+0069 U+0307 "stan", and that is the tag written. *)
Lemma initUserAccount_default_shop_tag_counterexample :
  let email := (304 :: js "STANBUL@x.com")%Z in
  let local := split_head 64 email in
  let r := Functions.initUserAccount (SB := dotted_builtins) Functions.alice_env
             Functions.alice_uid (Some email) Functions.empty_server in
  length local = 8 /\
  exists doc,
    Functions.users r.2 !! Functions.alice_uid = Some doc /\
    Functions.shopTag doc = (105 :: 775 :: js "stan")%Z /\
    length (Functions.shopTag doc) = 6 /\
    length (Functions.shopTag doc) <> min 5 (length local).
Proof.
  intros email local r. split; [reflexivity|].
  exists {| Functions.createdAt := VServerTimestamp;
            Functions.shopTag := (105 :: 775 :: js "stan")%Z |}.
  split; [vm_compute; reflexivity|]. split; [reflexivity|].
  split; [reflexivity|]. vm_compute. discriminate.
Qed.

(** C6. For an authenticated caller whose e-mail the identity provider
    supplies, [userLoggedIn] reports "success" and writes nothing when
    the user document exists; otherwise it writes the user document with
    [createdAt] and the shop tag derived from the e-mail and reports
    "created"; and a second call after either outcome reports "success"
    and writes nothing. *)
Theorem userLoggedIn_idempotent
    `{SB : StringBuiltins} (env : Functions.environment)
    (ctx : Functions.context) (uid email : jsstring) (w : Functions.server) :
  Functions.auth ctx = Some uid ->
  Functions.accounts env uid = Some (Some email) ->
  let r := Functions.userLoggedIn env ctx w in
  let r' := Functions.userLoggedIn env ctx r.2 in
  (is_Some (Functions.users w !! uid) ->
     r.1 = Functions.Returned "success"%string /\
     Functions.users r.2 = Functions.users w /\
     Functions.trace r.2 = Functions.trace w) /\
  (Functions.users w !! uid = None ->
     let local := split_head 64 email in
     let doc := {| Functions.createdAt := VServerTimestamp;
                   Functions.shopTag := toLowerCase (take (min 5 (length local)) local) |} in
     r.1 = Functions.Returned "created"%string /\
     Functions.users r.2 = <[uid := doc]> (Functions.users w) /\
     Functions.trace r.2 = Functions.trace w ++ [Functions.SetUser uid doc]) /\
  (r'.1 = Functions.Returned "success"%string /\
   Functions.users r'.2 = Functions.users r.2 /\
   Functions.trace r'.2 = Functions.trace r.2).
Proof.
  intros Hauth Hacc r r'.
  assert (forall w0, is_Some (Functions.users w0 !! uid) ->
            (Functions.userLoggedIn env ctx w0).1 = Functions.Returned "success"%string /\
            Functions.users (Functions.userLoggedIn env ctx w0).2 = Functions.users w0 /\
            Functions.trace (Functions.userLoggedIn env ctx w0).2 = Functions.trace w0)
    as Hexisting.
  { intros w0 Hex. unfold Functions.userLoggedIn.
    rewrite bind_run. unfold Functions.checkAuthentication. rewrite Hauth. simpl.
    rewrite bind_run. unfold Functions.getUser_email. rewrite Hacc. simpl.
    rewrite bind_run, initUserAccount_existing by done. done. }
  assert (Functions.users w !! uid = None ->
     let local := split_head 64 email in
     let doc := {| Functions.createdAt := VServerTimestamp;
                   Functions.shopTag := toLowerCase (take (min 5 (length local)) local) |} in
     r.1 = Functions.Returned "created"%string /\
     Functions.users r.2 = <[uid := doc]> (Functions.users w) /\
     Functions.trace r.2 = Functions.trace w ++ [Functions.SetUser uid doc]) as Hnew.
  { intros Hnone local doc. subst r. unfold Functions.userLoggedIn.
    rewrite bind_run. unfold Functions.checkAuthentication. rewrite Hauth. simpl.
    rewrite bind_run. unfold Functions.getUser_email. rewrite Hacc. simpl.
    rewrite bind_run.
    destruct (initUserAccount_new env uid email w Hnone) as (H1 & H2 & H3 & _).
    destruct (Functions.initUserAccount env uid (Some email) w) as [o w1].
    simpl in *. subst o. done. }
  split; [apply Hexisting|]. split; [exact Hnew|].
  apply Hexisting.
  destruct (Functions.users w !! uid) as [d|] eqn:Hd.
  - destruct (Hexisting w) as (_ & Hu & _); [by rewrite Hd|].
    fold r in Hu. rewrite Hu, Hd. by eexists.
  - destruct (Hnew eq_refl) as (_ & Hu & _).
    rewrite Hu, lookup_insert_eq. by eexists.
Qed.

Lemma userLoggedIn_idempotent_witness :
  let r := Functions.userLoggedIn (SB := ascii_builtins) Functions.alice_env
             Functions.alice_ctx Functions.empty_server in
  let r' := Functions.userLoggedIn (SB := ascii_builtins) Functions.alice_env
              Functions.alice_ctx r.2 in
  r.1 = Functions.Returned "created"%string /\
  r'.1 = Functions.Returned "success"%string /\
  Functions.users r'.2 = Functions.users r.2 /\
  Functions.trace r'.2 = Functions.trace r.2.
Proof.
  intros r r'.
  destruct (userLoggedIn_idempotent (SB := ascii_builtins) Functions.alice_env
              Functions.alice_ctx Functions.alice_uid (js "alice@example.com")
              Functions.empty_server eq_refl ltac:(vm_compute; reflexivity))
    as (_ & Hnew & H1 & H2 & H3).
  destruct (Hnew eq_refl) as (Hc & _).
  exact (conj Hc (conj H1 (conj H2 H3))).
Defined.

(** ** The cached shop tag *)

Section ShopTag.

Import Session.

Lemma getUserShopTag_hit fs uid s :
  truthy_tag (Db.shopTag (Db.cache (client s))) = true ->
  getUserShopTag fs uid s = (Db.shopTag (Db.cache (client s)), s).
Proof. intros H. unfold getUserShopTag. by rewrite H. Qed.

Lemma getUserShopTag_found fs uid s d :
  truthy_tag (Db.shopTag (Db.cache (client s))) = false ->
  users fs !! uid = Some d ->
  getUserShopTag fs uid s
  = (Some (Functions.shopTag d),
     with_client (set_shopTag (Some (Functions.shopTag d)) (client s))
       (sent (GetDoc "users" uid) s)).
Proof. intros H Hd. unfold getUserShopTag. by rewrite H, Hd. Qed.

Lemma getUserShopTag_missing fs uid s :
  truthy_tag (Db.shopTag (Db.cache (client s))) = false ->
  users fs !! uid = None ->
  getUserShopTag fs uid s
  = (None, alert (js "No shop tag set!") (sent (GetDoc "users" uid) s)).
Proof. intros H Hd. unfold getUserShopTag. by rewrite H, Hd. Qed.

Lemma truthy_tag_nonempty t : t <> [] -> truthy_tag (Some t) = true.
Proof. by destruct t. Qed.

End ShopTag.

(** X1. With no shop tag cached, [getUserShopTag uid] reads the user
    document once, returns its non-empty shop tag and caches it; from then
    on every call returns that tag and leaves the session as it is, for
    any user id and whatever the store holds: the cached tag is not keyed
    by user. *)
Theorem getUserShopTag_caches_first_tag
    (fs : Session.firestore) (uid : jsstring) (s : Session.session)
    (d : Functions.userDoc) :
  Session.truthy_tag (Db.shopTag (Db.cache (Session.client s))) = false ->
  Session.users fs !! uid = Some d ->
  Functions.shopTag d <> [] ->
  let r := Session.getUserShopTag fs uid s in
  r.1 = Some (Functions.shopTag d) /\
  Session.calls r.2 = Session.calls s ++ [Session.GetDoc "users" uid] /\
  Session.alerts r.2 = Session.alerts s /\
  (forall fs' uid', Session.getUserShopTag fs' uid' r.2 = (Some (Functions.shopTag d), r.2)).
Proof.
  intros Hcold Hd Hne r. subst r.
  rewrite (getUserShopTag_found fs uid s d Hcold Hd). simpl.
  repeat split. intros fs' uid'.
  rewrite getUserShopTag_hit; [done|]. simpl. by apply truthy_tag_nonempty.
Qed.

(** X2. Without a user document [getUserShopTag] returns [null], shows the
    alert "No shop tag set!" and caches nothing, so the next call reads
    the store again. A shop tag that is the empty string is returned but,
    being falsy, never served from the cache: every call reads the user
    document anew. *)
Theorem getUserShopTag_uncached_results
    (fs : Session.firestore) (uid : jsstring) (s : Session.session) :
  Session.truthy_tag (Db.shopTag (Db.cache (Session.client s))) = false ->
  let r := Session.getUserShopTag fs uid s in
  let r' := Session.getUserShopTag fs uid r.2 in
  (Session.users fs !! uid = None ->
     r.1 = None /\
     Session.alerts r.2 = Session.alerts s ++ [js "No shop tag set!"] /\
     Session.client r.2 = Session.client s /\
     Session.calls r'.2
     = Session.calls s ++ [Session.GetDoc "users" uid; Session.GetDoc "users" uid]) /\
  (forall d, Session.users fs !! uid = Some d -> Functions.shopTag d = [] ->
     r.1 = Some [] /\ r'.1 = Some [] /\
     Session.alerts r'.2 = Session.alerts s /\
     Session.calls r'.2
     = Session.calls s ++ [Session.GetDoc "users" uid; Session.GetDoc "users" uid]).
Proof.
  intros Hcold r r'. split.
  - intros Hnone. subst r' r.
    rewrite (getUserShopTag_missing fs uid s Hcold Hnone). simpl.
    rewrite getUserShopTag_missing by done. simpl.
    by rewrite <- app_assoc.
  - intros d Hd Hempty. subst r' r.
    rewrite (getUserShopTag_found fs uid s d Hcold Hd). simpl.
    rewrite (getUserShopTag_found fs uid _ d) by (simpl; by rewrite ?Hempty).
    simpl. rewrite Hempty. by rewrite <- app_assoc.
Qed.

(** ** Listing the tickets of a user *)

Section UserTickets.

Import Session.

Lemma set_shopTag_tickets t c :
  Db.cached_tickets (Db.cache (set_shopTag t c)) = Db.cached_tickets (Db.cache c).
Proof. done. Qed.


End UserTickets.

(** X3. With nothing cached, [getTicketsGeneratedByUser] for a user whose
    document carries the shop tag [h ++ [c]], [c] below 0xFFFF, reads that
    document, sends the range scan of the tag and resolves with exactly
    the tickets whose key starts with the tag, in ascending key order,
    each tagged with its position and key. *)
Theorem getTicketsGeneratedByUser_lists_shop_tickets
    (fs : Session.firestore) (uid : jsstring) (s : Session.session)
    (d : Functions.userDoc) (h : jsstring) (c : Z) :
  Session.truthy_tag (Db.shopTag (Db.cache (Session.client s))) = false ->
  Db.cached_tickets (Db.cache (Session.client s)) = false ->
  Session.users fs !! uid = Some d ->
  Functions.shopTag d = h ++ [c] ->
  (0 <= c < 65535)%Z ->
  let r := Session.getTicketsGeneratedByUser fs uid s in
  exists data kds,
    r.1 = Session.Resolved data /\
    Db.read_records (Db.heap (Session.client r.2)) data = Some <$> imap Db.tagged kds /\
    (forall k doc, (k, doc) ∈ kds <->
       Session.ticket_info fs !! k = Some doc /\ (h ++ [c]) `prefix_of` k) /\
    StronglySorted str_lt kds.*1 /\
    Session.calls r.2 = Session.calls s ++ [Session.GetDoc "users" uid] /\
    Db.scans (Session.client r.2)
    = Db.scans (Session.client s) ++ [(h ++ [c], h ++ [(c + 1)%Z])].
Proof.
  intros Htag Hcold Hd Ht Hc r. subst r. unfold Session.getTicketsGeneratedByUser.
  rewrite (getUserShopTag_found fs uid s d Htag Hd). rewrite Ht.
  set (s1 := Session.with_client _ _).
  assert (Db.cached_tickets (Db.cache (Session.client s1)) = false) as Hcold1 by done.
  pose proof (getTicketsByPrefix_miss (Session.ticket_info fs) (h ++ [c])
                (Session.client s1) Hcold1) as (Hs & Hr & _).
  destruct (Db.getTicketsByPrefix (Session.ticket_info fs) (h ++ [c]) (Session.client s1))
    as [data c'] eqn:E. simpl in *.
  exists data, (rangeScan (Session.ticket_info fs) (Db.prefix_query (h ++ [c]))).
  split; [done|]. split; [done|]. split; [|split; [apply rangeScan_sorted|]].
  - intros k doc. rewrite elem_of_rangeScan.
    by rewrite (in_range_prefix h c (k, doc)) by done.
  - split; [done|]. rewrite Hs. by rewrite prefix_query_bounds.
Qed.

(** X4. With no shop tag cached and no user document,
    [getTicketsGeneratedByUser] shows the alert and rejects (the [null]
    prefix has no [length]); it sends no range scan and leaves the cache
    as it is. *)
Theorem getTicketsGeneratedByUser_rejects_without_user_doc
    (fs : Session.firestore) (uid : jsstring) (s : Session.session) :
  Session.truthy_tag (Db.shopTag (Db.cache (Session.client s))) = false ->
  Session.users fs !! uid = None ->
  let r := Session.getTicketsGeneratedByUser fs uid s in
  r.1 = Session.Rejected /\
  Session.alerts r.2 = Session.alerts s ++ [js "No shop tag set!"] /\
  Session.client r.2 = Session.client s /\
  Session.calls r.2 = Session.calls s ++ [Session.GetDoc "users" uid].
Proof.
  intros Htag Hnone r. subst r. unfold Session.getTicketsGeneratedByUser.
  by rewrite (getUserShopTag_missing fs uid s Htag Hnone).
Qed.

(** X5. Once a session holds a non-empty shop tag and a non-empty ticket
    list, as after a listing for one user, [getTicketsGeneratedByUser]
    resolves with that list for every user id and every store, asks the
    store nothing and leaves the session unchanged: another user of the
    same session is shown the first user's tickets until
    [clearCachedData] runs, after which the store is asked again. *)
Theorem getTicketsGeneratedByUser_serves_cached_list_to_any_user
    (fs : Session.firestore) (uid : jsstring) (s : Session.session)
    (data : list value) :
  let r := Session.getTicketsGeneratedByUser fs uid s in
  r.1 = Session.Resolved data ->
  data <> [] ->
  Session.truthy_tag (Db.shopTag (Db.cache (Session.client r.2))) = true ->
  (forall fs' uid',
     Session.getTicketsGeneratedByUser fs' uid' r.2 = (Session.Resolved data, r.2)) /\
  (forall fs' uid',
     Session.calls (Session.getTicketsGeneratedByUser fs' uid'
                      (Session.clearCachedData r.2)).2
     = Session.calls r.2 ++ [Session.GetDoc "users" uid']).
Proof.
  intros r Hres Hne Htag.
  assert (Db.ticketData (Db.cache (Session.client r.2)) = Some data) as Htd.
  { subst r. unfold Session.getTicketsGeneratedByUser in *.
    destruct (Session.getUserShopTag fs uid s) as [[p|] s1]; [|done].
    pose proof (getTicketsByPrefix_caches (Session.ticket_info fs) p (Session.client s1)) as Hc.
    destruct (Db.getTicketsByPrefix (Session.ticket_info fs) p (Session.client s1))
      as [data' c']. simpl in *. by injection Hres as ->. }
  assert (Db.cached_tickets (Db.cache (Session.client r.2)) = true) as Hhit
    by (by eapply cached_tickets_nonempty).
  split.
  - intros fs' uid'. unfold Session.getTicketsGeneratedByUser.
    rewrite getUserShopTag_hit by done.
    destruct (Db.shopTag (Db.cache (Session.client r.2))) as [p|]; [|done].
    rewrite getTicketsByPrefix_hit by done. rewrite Htd. simpl.
    by destruct r.2.
  - intros fs' uid'. unfold Session.getTicketsGeneratedByUser.
    set (s0 := Session.clearCachedData r.2).
    assert (Session.truthy_tag (Db.shopTag (Db.cache (Session.client s0))) = false)
      as Hcold by done.
    destruct (Session.users fs' !! uid') as [d|] eqn:Hd.
    + rewrite (getUserShopTag_found fs' uid' s0 d Hcold Hd).
      destruct (Db.getTicketsByPrefix _ _ _) as [data' c']. done.
    + by rewrite (getUserShopTag_missing fs' uid' s0 Hcold Hd).
Qed.

(** ** Listing and deleting prizes *)

Section PrizeList.

Import Session.

Lemma elem_of_queryCreator (c : collection) uid k d :
  (k, d) ∈ queryCreator c uid <-> c !! k = Some d /\ created_by uid (k, d) = true.
Proof.
  unfold queryCreator. rewrite merge_sort_Permutation, list_elem_of_filter.
  rewrite elem_of_map_to_list. tauto.
Qed.

Lemma queryCreator_sorted (c : collection) uid :
  StronglySorted str_lt (queryCreator c uid).*1.
Proof.
  apply StronglySorted_keys.
  - unfold queryCreator. apply (StronglySorted_merge_sort key_le).
  - unfold queryCreator. rewrite merge_sort_Permutation.
    apply NoDup_fst_filter, NoDup_fst_map_to_list.
Qed.

(** The loop resolves when every document has its info document: it reads
    each info document once, in order, and appends one fresh joined
    record per document; the cache is not touched. *)
Lemma join_prizes_resolves fs docs : forall i prizes s recs,
  Forall (fun kd => is_Some (prize_info fs !! kd.1)) docs ->
  Db.read_records (Db.heap (client s)) prizes = Some <$> recs ->
  exists out,
    join_prizes fs (Z.of_nat i) docs prizes s = (Resolved out, (join_prizes fs (Z.of_nat i) docs prizes s).2) /\
    Db.read_records (Db.heap (client (join_prizes fs (Z.of_nat i) docs prizes s).2)) out
    = Some <$> (recs ++ imap (fun j kd => joined fs (i + j) kd) docs) /\
    length out = length prizes + length docs /\
    Db.cache (client (join_prizes fs (Z.of_nat i) docs prizes s).2) = Db.cache (client s) /\
    Db.scans (client (join_prizes fs (Z.of_nat i) docs prizes s).2) = Db.scans (client s) /\
    alerts (join_prizes fs (Z.of_nat i) docs prizes s).2 = alerts s /\
    calls (join_prizes fs (Z.of_nat i) docs prizes s).2
    = calls s ++ (GetDoc "prize-info" <$> docs.*1).
Proof.
  induction docs as [|kd docs IH]; intros i prizes s recs Hall Hr; cbn [join_prizes].
  - exists prizes. simpl. rewrite !app_nil_r. repeat split; [done|lia].
  - apply Forall_cons in Hall as [[info Hinfo] Hall].
    unfold getPrizeInfo. rewrite Hinfo.
    set (full := fullPrizeData (Z.of_nat i) kd.1 kd.2 info).
    set (s1 := with_client _ _).
    replace (Z.of_nat i + 1)%Z with (Z.of_nat (S i)) by lia.
    destruct (IH (S i) (prizes ++ [VRef (fresh (dom (Db.heap (client (sent (GetDoc "prize-info" kd.1) s)))))])
                s1 (recs ++ [full]) Hall)
      as (out & Hout & Hrec & Hlen & Hcache & Hscans & Halerts & Hcalls).
    { unfold s1. simpl. rewrite read_records_app, fmap_app.
      rewrite (read_records_alloc _ _ recs) by done.
      simpl. by rewrite lookup_insert_eq. }
    exists out. split; [done|]. rewrite Hrec, Hcache, Hscans, Halerts, Hcalls.
    split; [|split; [|repeat split]].
    + rewrite <- app_assoc. simpl. do 3 f_equal.
      * unfold joined. simpl. rewrite Hinfo. simpl. by rewrite Nat.add_0_r.
      * apply imap_ext. intros j x _. simpl. f_equal. lia.
    + rewrite Hlen, length_app. simpl. lia.
    + unfold s1. simpl. by rewrite <- app_assoc.
Qed.

(** The loop rejects as soon as a document has no info document, and the
    cache is not touched. *)
Lemma join_prizes_rejects fs docs : forall i prizes s kd,
  kd ∈ docs -> prize_info fs !! kd.1 = None ->
  (join_prizes fs i docs prizes s).1 = Rejected /\
  Db.cache (client (join_prizes fs i docs prizes s).2) = Db.cache (client s).
Proof.
  induction docs as [|kd0 docs IH]; intros i prizes s kd Hin Hnone; [by inv Hin|].
  cbn [join_prizes]. unfold getPrizeInfo.
  destruct (prize_info fs !! kd0.1) as [info|] eqn:Hinfo; [|done].
  apply elem_of_cons in Hin as [->|Hin]; [congruence|].
  set (s1 := with_client _ _).
  destruct (IH (i + 1)%Z (prizes ++ [VRef (fresh (dom (Db.heap (client (sent (GetDoc "prize-info" kd0.1) s)))))])
              s1 kd Hin Hnone) as [H1 H2].
  split; [done|]. by rewrite H2.
Qed.

End PrizeList.

(** X6. With no prize list cached, and an info document for every prize
    of the user, [getPrizesGeneratedByUser] resolves with one record per
    prize whose [creatorUserID] is the user id, in ascending key order:
    the record at position i has id i + 1, the key as [docId], [name],
    [description] and [image] of the info document and [quantity] and
    [createdAt] of the metadata document. It reads each info document
    once, and caches the list. *)
Theorem getPrizesGeneratedByUser_joins_user_prizes
    (fs : Session.firestore) (uid : jsstring) (s : Session.session) :
  Db.prizeData (Db.cache (Session.client s)) = None ->
  (forall k d, Session.prizes fs !! k = Some d ->
     Session.created_by uid (k, d) = true -> is_Some (Session.prize_info fs !! k)) ->
  let r := Session.getPrizesGeneratedByUser fs uid s in
  exists data kds,
    r.1 = Session.Resolved data /\
    Db.read_records (Db.heap (Session.client r.2)) data
    = Some <$> imap (Session.joined fs) kds /\
    (forall k d, (k, d) ∈ kds <->
       Session.prizes fs !! k = Some d /\ d !! "creatorUserID" = Some (VStr uid)) /\
    StronglySorted str_lt kds.*1 /\
    (forall i k d, kds !! i = Some (k, d) ->
       exists info, Session.prize_info fs !! k = Some info /\
         Session.joined fs i (k, d) !! "id" = Some (VNum (num_of_Z (Z.of_nat i + 1))) /\
         Session.joined fs i (k, d) !! "docId" = Some (VStr k) /\
         Session.joined fs i (k, d) !! "name" = Some (Session.field info "name") /\
         Session.joined fs i (k, d) !! "description" = Some (Session.field info "description") /\
         Session.joined fs i (k, d) !! "image" = Some (Session.field info "image") /\
         Session.joined fs i (k, d) !! "quantity" = Some (Session.field d "quantity") /\
         Session.joined fs i (k, d) !! "createdAt" = Some (Session.field d "createdAt")) /\
    Db.prizeData (Db.cache (Session.client r.2)) = Some data /\
    Session.calls r.2
    = Session.calls s ++ Session.QueryCreator uid
        :: (Session.GetDoc "prize-info" <$> kds.*1).
Proof.
  intros Hcold Hinfo r. subst r. unfold Session.getPrizesGeneratedByUser.
  set (s0 := Session.sent _ s).
  change (Db.prizeData (Db.cache (Session.client s0)))
    with (Db.prizeData (Db.cache (Session.client s))). rewrite Hcold.
  set (snap := Session.queryCreator (Session.prizes fs) uid).
  assert (forall k d, (k, d) ∈ snap <->
            Session.prizes fs !! k = Some d /\ d !! "creatorUserID" = Some (VStr uid))
    as Hsnap.
  { intros k d. unfold snap. rewrite elem_of_queryCreator.
    unfold Session.created_by. simpl. split; intros [H1 H2]; (split; [done|]).
    - destruct (d !! "creatorUserID") as [[]|]; try done.
      apply bool_decide_eq_true in H2. by subst.
    - rewrite H2. by apply bool_decide_eq_true. }
  assert (Forall (fun kd => is_Some (Session.prize_info fs !! kd.1)) snap) as Hall.
  { apply Forall_forall. intros [k d] Hin. simpl.
    apply elem_of_queryCreator in Hin as [H1 H2]. by eapply Hinfo. }
  destruct (join_prizes_resolves fs snap 0 [] s0 [] Hall eq_refl)
    as (out & Hout & Hrec & _ & Hcache & _ & _ & Hcalls).
  change (Z.of_nat 0) with 0%Z in *. rewrite Hout.
  exists out, snap. simpl.
  split; [done|]. split; [exact Hrec|]. split; [exact Hsnap|].
  split; [apply queryCreator_sorted|]. split; [|split].
  - intros i k d Hi.
    assert ((k, d) ∈ snap) as Hin by (by eapply list_elem_of_lookup_2).
    rewrite Forall_forall in Hall. destruct (Hall _ Hin) as [info Hi'].
    simpl in Hi'. exists info. split; [done|].
    unfold Session.joined, Session.fullPrizeData. simpl. rewrite Hi'. simpl.
    rewrite num_add_of_Z. done.
  - by destruct (Db.cache _).
  - rewrite Hcalls. unfold s0. simpl. by rewrite <- app_assoc.
Qed.

(** X7. [getPrizesGeneratedByUser] sends its query to the store on every
    call, also when it then returns the cached list. Once a call has
    resolved on an unset cache, every later call resolves with the same
    list for any user and any store: an empty list is cached like any
    other, so prizes created afterwards are not shown. *)
Theorem getPrizesGeneratedByUser_serves_cached_list
    (fs : Session.firestore) (uid : jsstring) (s : Session.session)
    (data : list value) :
  Db.prizeData (Db.cache (Session.client s)) = None ->
  let r := Session.getPrizesGeneratedByUser fs uid s in
  r.1 = Session.Resolved data ->
  forall fs' uid',
    Session.getPrizesGeneratedByUser fs' uid' r.2
    = (Session.Resolved data, Session.sent (Session.QueryCreator uid') r.2).
Proof.
  intros Hcold r Hres fs' uid'.
  assert (Db.prizeData (Db.cache (Session.client r.2)) = Some data) as Hc.
  { subst r. unfold Session.getPrizesGeneratedByUser in *.
    change (Db.prizeData (Db.cache (Session.client (Session.sent (Session.QueryCreator uid) s))))
      with (Db.prizeData (Db.cache (Session.client s))) in *.
    rewrite Hcold in *.
    destruct (Session.join_prizes _ _ _ _ _) as [[out|] s1]; [|done].
    simpl in *. injection Hres as ->. by destruct (Db.cache _). }
  unfold Session.getPrizesGeneratedByUser.
  change (Db.prizeData (Db.cache (Session.client (Session.sent (Session.QueryCreator uid') r.2))))
    with (Db.prizeData (Db.cache (Session.client r.2))).
  by rewrite Hc.
Qed.

(** X8. With no prize list cached, a prize of the user that has a
    metadata document but no info document makes
    [getPrizesGeneratedByUser] reject, whatever the other prizes are, and
    nothing is cached. *)
Theorem getPrizesGeneratedByUser_rejects_on_missing_info
    (fs : Session.firestore) (uid : jsstring) (s : Session.session)
    (k : jsstring) (d : fields) :
  Db.prizeData (Db.cache (Session.client s)) = None ->
  Session.prizes fs !! k = Some d ->
  d !! "creatorUserID" = Some (VStr uid) ->
  Session.prize_info fs !! k = None ->
  let r := Session.getPrizesGeneratedByUser fs uid s in
  r.1 = Session.Rejected /\
  Db.prizeData (Db.cache (Session.client r.2)) = None /\
  Db.ticketData (Db.cache (Session.client r.2)) = Db.ticketData (Db.cache (Session.client s)).
Proof.
  intros Hcold Hk Hd Hnone r. subst r. unfold Session.getPrizesGeneratedByUser.
  set (s0 := Session.sent _ s).
  change (Db.prizeData (Db.cache (Session.client s0)))
    with (Db.prizeData (Db.cache (Session.client s))). rewrite Hcold.
  assert ((k, d) ∈ Session.queryCreator (Session.prizes fs) uid) as Hin.
  { apply elem_of_queryCreator. split; [done|].
    unfold Session.created_by. simpl. rewrite Hd. by apply bool_decide_eq_true. }
  destruct (join_prizes_rejects fs _ 0%Z [] s0 (k, d) Hin Hnone) as [Hrej Hcache].
  destruct (Session.join_prizes _ _ _ _ _) as [[out|] s1]; [done|].
  simpl in *. rewrite Hcache. done.
Qed.

Section PrizeDelete.

Import Session.

(** A listing that resolves on an unset cache hands out the joined
    records of the query. *)
Lemma getPrizesGeneratedByUser_resolved fs uid s data :
  Db.prizeData (Db.cache (client s)) = None ->
  (getPrizesGeneratedByUser fs uid s).1 = Resolved data ->
  Db.read_records (Db.heap (client (getPrizesGeneratedByUser fs uid s).2)) data
  = Some <$> imap (joined fs) (queryCreator (prizes fs) uid).
Proof.
  intros Hcold. unfold getPrizesGeneratedByUser.
  set (s0 := sent _ s).
  change (Db.prizeData (Db.cache (client s0))) with (Db.prizeData (Db.cache (client s))).
  rewrite Hcold.
  set (snap := queryCreator (prizes fs) uid).
  destruct (decide (Forall (fun kd => is_Some (prize_info fs !! kd.1)) snap))
    as [Hall|Hnot].
  - destruct (join_prizes_resolves fs snap 0 [] s0 [] Hall eq_refl)
      as (out & Hout & Hrec & _).
    change (Z.of_nat 0) with 0%Z in *. rewrite Hout. simpl.
    intros [= <-]. exact Hrec.
  - apply not_Forall_Exists in Hnot; [|apply _].
    apply Exists_exists in Hnot as (kd & Hin & Hkd).
    destruct (join_prizes_rejects fs snap 0%Z [] s0 kd Hin) as [Hrej _].
    { by apply eq_None_not_Some. }
    destruct (join_prizes fs 0 snap [] s0) as [[out|] s1]; done.
Qed.

Lemma joined_docId fs i kd : joined fs i kd !! "docId" = Some (VStr kd.1).
Proof. done. Qed.

End PrizeDelete.

(** X9. [deletePrize id] always returns true, also when no such prize
    exists. Afterwards neither ["prizes"] nor ["prize-info"] holds a
    document under [id], every other document and the two other
    collections are as before, and the cached prize list is unset while
    the cached tickets and shop tag stay; so the next listing asks the
    store again, and when it resolves none of its records has [id] as
    [docId]. *)
Theorem deletePrize_removes_pair_and_evicts
    (id : jsstring) (fs : Session.firestore) (s : Session.session) :
  let r := Session.deletePrize id fs s in
  r.1.1 = true /\
  (Session.prizes r.1.2 !! id = None /\ Session.prize_info r.1.2 !! id = None) /\
  (forall k, k <> id ->
     Session.prizes r.1.2 !! k = Session.prizes fs !! k /\
     Session.prize_info r.1.2 !! k = Session.prize_info fs !! k) /\
  (Session.users r.1.2 = Session.users fs /\
   Session.ticket_info r.1.2 = Session.ticket_info fs) /\
  (Db.prizeData (Db.cache (Session.client r.2)) = None /\
   Db.ticketData (Db.cache (Session.client r.2))
   = Db.ticketData (Db.cache (Session.client s)) /\
   Db.shopTag (Db.cache (Session.client r.2))
   = Db.shopTag (Db.cache (Session.client s))) /\
  Session.calls r.2
  = Session.calls s ++ [Session.DeleteDoc "prizes" id; Session.DeleteDoc "prize-info" id] /\
  (forall uid data,
     (Session.getPrizesGeneratedByUser r.1.2 uid r.2).1 = Session.Resolved data ->
     forall o,
       Some o ∈ Db.read_records
                 (Db.heap (Session.client (Session.getPrizesGeneratedByUser r.1.2 uid r.2).2))
                 data ->
       o !! "docId" <> Some (VStr id)).
Proof.
  intros r.
  assert (Db.prizeData (Db.cache (Session.client r.2)) = None) as Hcold.
  { subst r. unfold Session.deletePrize. simpl.
    destruct (Db.prizeData (Db.cache (Session.client s))) eqn:E; simpl; [done|exact E]. }
  split; [done|]. split; [split; apply lookup_delete_eq|].
  split; [intros k Hk; split; by apply lookup_delete_ne|].
  split; [done|]. split; [split; [done|]|split].
  - subst r. unfold Session.deletePrize. simpl.
    by destruct (Db.prizeData (Db.cache (Session.client s))).
  - subst r. unfold Session.deletePrize. simpl.
    destruct (Db.prizeData (Db.cache (Session.client s))); simpl;
      by rewrite <- app_assoc.
  - intros uid data Hres o Hin.
    rewrite (getPrizesGeneratedByUser_resolved _ _ _ _ Hcold Hres) in Hin.
    apply list_elem_of_fmap in Hin as (o' & [= <-] & Hin).
    apply list_elem_of_lookup in Hin as [i Hi].
    rewrite list_lookup_imap in Hi.
    destruct (Session.queryCreator (Session.prizes r.1.2) uid !! i)
      as [[k d]|] eqn:Hk; [|done].
    simpl in Hi. injection Hi as <-.
    apply list_elem_of_lookup_2, elem_of_queryCreator in Hk as [Hk _].
    rewrite joined_docId. simpl. intros [= ->].
    subst r. simpl in Hk. by rewrite lookup_delete_eq in Hk.
Qed.

(** ** Numbering and warming of the ticket cache *)

Section TicketNumbering.

Import Session.

Lemma read_records_lookup h vs recs i v :
  Db.read_records h vs = Some <$> recs ->
  vs !! i = Some v ->
  exists l o, v = VRef l /\ h !! l = Some o /\ recs !! i = Some o.
Proof.
  intros Hr Hv.
  assert (Db.read_records h vs !! i = (Some <$> recs) !! i) as Hi by by rewrite Hr.
  unfold Db.read_records in Hi. rewrite !list_lookup_fmap, Hv in Hi. simpl in Hi.
  destruct (recs !! i) as [o|]; [|done]. simpl in Hi.
  destruct v; try done. injection Hi as Hi. by exists l, o.
Qed.

Lemma tagged_id i kd : Db.tagged i kd !! "id" = Some (VNum (num_of_Z (Z.of_nat i + 1))).
Proof. unfold Db.tagged. by rewrite lookup_insert_ne, lookup_insert_eq. Qed.

(** The cached list after the loop, whatever the records are. *)
Lemma save_loop_list s data : forall c old,
  Db.get_slot s (Db.cache c) = Some old ->
  Db.get_slot s (Db.cache (Db.save_loop s data c)) = Some (old ++ (VRef <$> data)) /\
  Db.scans (Db.save_loop s data c) = Db.scans c /\
  (forall s', s' <> s ->
     Db.get_slot s' (Db.cache (Db.save_loop s data c)) = Db.get_slot s' (Db.cache c)).
Proof.
  induction data as [|l data IH]; intros c old Hold; cbn [Db.save_loop].
  - by rewrite app_nil_r.
  - rewrite Hold. cbn [default].
    set (c1 := {| Db.heap := _; Db.cache := _; Db.scans := _ |}).
    destruct (IH c1 (old ++ [VRef l])) as (H1 & H2 & H3).
    { unfold c1. simpl. by rewrite get_set_slot. }
    rewrite H1, H2. split; [by rewrite <- app_assoc|]. split; [done|].
    intros s' Hs'. rewrite H3 by done. unfold c1. simpl.
    by destruct s, s'.
Qed.

End TicketNumbering.

(** X10. The cached ticket list is numbered by position: the list a cold
    [getTicketsByPrefix] fetches has id i + 1 at position i, and
    [saveTicketsToMemory] keeps that numbering when it is given distinct
    records that are not yet in the cached list. *)
Theorem ticket_cache_numbered_by_position
    (db : collection) (prefix : jsstring) (data : list loc)
    (cached : list value) (c : Db.client) :
  (Db.cached_tickets (Db.cache c) = false ->
     let r := Db.getTicketsByPrefix db prefix c in
     Session.numbered (Db.heap r.2) r.1) /\
  (Db.ticketData (Db.cache c) = Some cached ->
   Session.numbered (Db.heap c) cached ->
   NoDup data ->
   (forall l, l ∈ data -> is_Some (Db.heap c !! l) /\ VRef l ∉ cached) ->
     let r := Db.saveTicketsToMemory data c in
     r.1 = cached ++ (VRef <$> data) /\
     Db.ticketData (Db.cache r.2) = Some r.1 /\
     Session.numbered (Db.heap r.2) r.1).
Proof.
  split.
  - intros Hcold r. destruct (getTicketsByPrefix_miss db prefix c Hcold) as (_ & Hr & _).
    fold r in Hr. intros i v Hv.
    destruct (read_records_lookup _ _ _ _ _ Hr Hv) as (l & o & -> & Hl & Ho).
    rewrite list_lookup_imap in Ho.
    destruct (rangeScan db (Db.prefix_query prefix) !! i) as [kd|]; [|done].
    simpl in Ho. injection Ho as <-.
    unfold Session.record_id. rewrite Hl. simpl. apply tagged_id.
  - intros Hold Hnum Hnd Hdata r.
    destruct (save_to_memory_appends Db.Tickets data c cached Hold Hnd)
      as (H1 & H2 & Hids); [intros l Hl; by apply Hdata|].
    split; [exact H1|]. split; [exact H2|].
    intros i v Hv. fold r in Hids. subst r.
    unfold Db.saveTicketsToMemory in *. rewrite H1 in Hv.
    destruct (decide (i < length cached)) as [Hi|Hi].
    + rewrite lookup_app_l in Hv by done.
      pose proof (Hnum i v Hv) as Hid. unfold Session.record_id in *.
      destruct v as [| | | | | |l|]; try done.
      assert (l ∉ data) as Hl.
      { intros Hin. destruct (Hdata l Hin) as [_ Hnotin]. apply Hnotin.
        by eapply list_elem_of_lookup_2. }
      unfold Db.save_to_memory. cbn [Db.get_slot]. rewrite Hold. simpl.
      by rewrite save_loop_heap_other.
    + rewrite lookup_app_r in Hv by lia.
      rewrite list_lookup_fmap in Hv.
      destruct (data !! (i - length cached)) as [l|] eqn:Hl; [|done].
      simpl in Hv. injection Hv as <-.
      destruct (Hids _ _ Hl) as (o & Ho & Hid).
      unfold Session.record_id. rewrite Ho. simpl. rewrite Hid.
      do 3 f_equal. lia.
Qed.

(** X11. [saveTicketsToMemory] numbers the object it is given, not a copy:
    saving a record that is already cached appends it a second time and
    overwrites its id, so the same object then sits at two positions and
    carries the id of the last one; the list is no longer numbered by
    position. *)
Theorem saveTicketsToMemory_renumbers_cached_record
    (cached : list value) (c : Db.client) (i : nat) (l : loc) (o : fields) :
  Db.ticketData (Db.cache c) = Some cached ->
  cached !! i = Some (VRef l) ->
  Db.heap c !! l = Some o ->
  let r := Db.saveTicketsToMemory [l] c in
  r.1 = cached ++ [VRef l] /\
  r.1 !! i = Some (VRef l) /\
  r.1 !! length cached = Some (VRef l) /\
  Session.record_id (Db.heap r.2) (VRef l)
  = Some (VNum (num_of_Z (Z.of_nat (length cached) + 1))) /\
  ~ Session.numbered (Db.heap r.2) r.1.
Proof.
  intros Hold Hi Hl r.
  assert (r.1 = cached ++ [VRef l]) as H1.
  { subst r. unfold Db.saveTicketsToMemory, Db.save_to_memory.
    cbn [Db.get_slot Db.save_loop]. rewrite Hold. simpl. done. }
  assert (Session.record_id (Db.heap r.2) (VRef l)
          = Some (VNum (num_of_Z (Z.of_nat (length cached) + 1)))) as Hid.
  { subst r. unfold Db.saveTicketsToMemory, Db.save_to_memory.
    cbn [Db.get_slot Db.save_loop]. rewrite Hold. simpl.
    rewrite (set_field_id _ _ _ _ _ Hl). simpl.
    rewrite lookup_insert_eq. by rewrite num_add_of_Z. }
  pose proof (lookup_lt_Some _ _ _ Hi) as Hlt.
  split; [done|]. rewrite H1. split; [by rewrite lookup_app_l|].
  split; [by rewrite list_lookup_middle|]. split; [done|].
  intros Hnum. specialize (Hnum i (VRef l)).
  rewrite lookup_app_l in Hnum by done. specialize (Hnum Hi).
  rewrite Hid in Hnum. injection Hnum as Hnum. lia.
Qed.

(** X12. After [saveTicketsToMemory] on a cache whose ticket list is set,
    [getTicketsByPrefix] returns the cached list extended by the saved
    records without asking the store, for any prefix and any store.
    This also holds when the cached list was empty, as in the initial
    cache: the saved records are then all that is returned, and the
    tickets in the store are not fetched. *)
Theorem saveTicketsToMemory_then_getTicketsByPrefix_skips_store
    (cached : list value) (data : list loc) (c : Db.client) :
  Db.ticketData (Db.cache c) = Some cached ->
  cached ++ (VRef <$> data) <> [] ->
  let r := Db.saveTicketsToMemory data c in
  r.1 = cached ++ (VRef <$> data) /\
  Db.scans r.2 = Db.scans c /\
  (forall db prefix,
     Db.getTicketsByPrefix db prefix r.2 = (cached ++ (VRef <$> data), r.2)).
Proof.
  intros Hold Hne r.
  destruct (save_loop_list Db.Tickets data c cached Hold) as (Hl & Hs & _).
  cbn [Db.get_slot] in Hl.
  assert (r.2 = Db.save_loop Db.Tickets data c) as H2.
  { subst r. unfold Db.saveTicketsToMemory, Db.save_to_memory.
    cbn [Db.get_slot]. by rewrite Hold. }
  assert (Db.ticketData (Db.cache r.2) = Some (cached ++ (VRef <$> data))) as Htd
    by by rewrite H2.
  assert (r.1 = cached ++ (VRef <$> data)) as H1.
  { subst r. unfold Db.saveTicketsToMemory, Db.save_to_memory in *.
    cbn [Db.get_slot] in *. rewrite Hold in *. simpl in *. by rewrite Hl. }
  split; [done|]. split.
  - by rewrite H2.
  - intros db prefix. rewrite getTicketsByPrefix_hit.
    + by rewrite Htd.
    + by eapply cached_tickets_nonempty.
Qed.

(** ** Edges of the prefix range *)

Section PrefixEdges.

Lemma str_ltb_app_last h (a b : Z) :
  (a < b)%Z -> str_ltb (h ++ [a]) (h ++ [b]) = true.
Proof.
  intros Hab. induction h as [|x h IH]; simpl.
  - apply orb_true_iff. left. by apply Z.ltb_lt.
  - rewrite Z.ltb_irrefl, Z.eqb_refl. simpl. exact IH.
Qed.

(** A range whose upper bound precedes its lower bound holds no
    document. *)
Lemma rangeScan_inverted (db : collection) start stop :
  str_ltb stop start = true -> rangeScan db (start, stop) = [].
Proof.
  intros Hinv.
  destruct (rangeScan db (start, stop)) as [|[k d] l] eqn:E; [done|].
  assert ((k, d) ∈ rangeScan db (start, stop)) as Hin by (rewrite E; left).
  apply elem_of_rangeScan in Hin as [_ Hin]. unfold in_range, str_leb in Hin.
  simpl in Hin. apply andb_true_iff in Hin as [H1 H2].
  apply negb_true_iff in H1. by rewrite (str_ltb_trans _ _ _ H2 Hinv) in H1.
Qed.

Lemma prefix_query_wrap h :
  Db.prefix_query (h ++ [65535%Z]) = (h ++ [65535%Z], h ++ [0%Z]).
Proof.
  unfold Db.prefix_query. cbv zeta. rewrite slice_head, slice_tail.
  unfold charCodeAt, fromCharCode. change ([65535%Z] !! 0%nat) with (Some 65535%Z).
  cbv iota. rewrite num_add_of_Z. done.
Qed.

End PrefixEdges.

(** X13. For a prefix whose last code unit is 0xFFFF the incremented unit
    wraps to 0, the upper bound of the query precedes its lower bound,
    and a cold [getTicketsByPrefix] returns the empty list on every
    store, whatever tickets start with the prefix; the empty list leaves
    the cache cold, so each call sends the scan again. *)
Theorem getTicketsByPrefix_wraps_on_last_unit_FFFF
    (db : collection) (h : jsstring) (c : Db.client) :
  Db.cached_tickets (Db.cache c) = false ->
  let r := Db.getTicketsByPrefix db (h ++ [65535%Z]) c in
  Db.prefix_query (h ++ [65535%Z]) = (h ++ [65535%Z], h ++ [0%Z]) /\
  r.1 = [] /\
  Db.cached_tickets (Db.cache r.2) = false /\
  Db.scans r.2 = Db.scans c ++ [(h ++ [65535%Z], h ++ [0%Z])].
Proof.
  intros Hcold r. subst r. unfold Db.getTicketsByPrefix. rewrite Hcold.
  rewrite prefix_query_wrap.
  rewrite rangeScan_inverted by (apply str_ltb_app_last; lia).
  simpl. repeat split.
Qed.


(** ** Error paths of the callable functions *)

(** X15. [userLoggedIn] rejects an unauthenticated caller before anything
    else, and fails with an internal error, without reading the store,
    when the identity provider does not know the user. For a user record
    without e-mail it still reports "success" when the user document
    exists, and fails with an internal error, having written nothing,
    when it does not. *)
Theorem userLoggedIn_error_paths
    `{SB : StringBuiltins} (env : Functions.environment)
    (ctx : Functions.context) (w : Functions.server) :
  let r := Functions.userLoggedIn env ctx w in
  (Functions.auth ctx = None -> r = (Functions.Thrown Functions.unauthenticated, w)) /\
  (forall uid, Functions.auth ctx = Some uid ->
     (Functions.accounts env uid = None ->
        r = (Functions.Thrown Functions.internal, w)) /\
     (Functions.accounts env uid = Some None ->
        (is_Some (Functions.users w !! uid) ->
           r.1 = Functions.Returned "success"%string) /\
        (Functions.users w !! uid = None ->
           r.1 = Functions.Thrown Functions.internal) /\
        Functions.users r.2 = Functions.users w /\
        Functions.trace r.2 = Functions.trace w)).
Proof.
  intros r. subst r. unfold Functions.userLoggedIn.
  rewrite bind_run. unfold Functions.checkAuthentication. split.
  - by intros ->.
  - intros uid ->. simpl. rewrite bind_run. unfold Functions.getUser_email. split.
    + by intros ->.
    + intros ->. simpl. rewrite bind_run.
      destruct (Functions.users w !! uid) as [d|] eqn:Hd.
      * rewrite initUserAccount_existing by (by rewrite Hd). simpl.
        repeat split; try done.
      * unfold Functions.initUserAccount. rewrite bind_run, accountExists_run.
        unfold doc_exists.
        rewrite bool_decide_eq_false_2 by (rewrite Hd; by intros [? ?]).
        simpl. repeat split; try done; by intros [? ?].
Qed.

(** X16. [generateTickets] checks the caller before the amount: without
    authentication it throws [unauthenticated] whatever the amount, the
    state untouched. With an amount that passes the range check but no
    user document it throws [unknown] after the one read of that
    document: no random suffix is drawn and no ticket is written. *)
Theorem generateTickets_error_paths
    `{SB : StringBuiltins} (env : Functions.environment) (fuel : nat)
    (data : Functions.request) (ctx : Functions.context) (w : Functions.server) :
  let r := Functions.generateTickets env fuel data ctx w in
  (Functions.auth ctx = None -> r = (Functions.Thrown Functions.unauthenticated, w)) /\
  (forall uid, Functions.auth ctx = Some uid ->
     num_gtb (ToNumber (Functions.amount data)) (num_of_Z 10)
       || num_ltb (ToNumber (Functions.amount data)) (num_of_Z 1) = false ->
     Functions.users w !! uid = None ->
     r = (Functions.Thrown Functions.unknown, (Functions.settle env w).2) /\
     Functions.trace r.2 = Functions.trace w /\
     Functions.drawn r.2 = Functions.drawn w /\
     Functions.users r.2 = Functions.users w).
Proof.
  intros r. subst r. unfold Functions.generateTickets.
  rewrite bind_run. unfold Functions.checkAuthentication. split.
  - by intros ->.
  - intros uid -> -> Hnone. simpl. rewrite bind_run, read_shopTag_run, Hnone. done.
Qed.

(** ** The batch a call of generateTickets issues *)

Section BatchFacts.

Import Functions Batch.
Context `{SB : StringBuiltins} (env : environment).

Lemma written_codes_app tr1 tr2 :
  written_codes (tr1 ++ tr2) = written_codes tr1 ++ written_codes tr2.
Proof. apply omap_app. Qed.

Lemma written_codes_collisions codes : written_codes (collisions codes) = [].
Proof.
  induction codes as [|c codes IH]; [done|].
  change (written_codes (collisions (c :: codes)))
    with (written_codes (collisions codes)). exact IH.
Qed.

Lemma written_codes_rounds atts :
  written_codes (flat_map attempt_events atts) = issued <$> atts.
Proof.
  induction atts as [|a atts IH]; [done|].
  cbn [flat_map]. rewrite written_codes_app, IH. unfold attempt_events.
  rewrite written_codes_app, written_codes_collisions. done.
Qed.

(** A call that returns had an authenticated caller with a user document
    and an amount that passed the range check; its trace is a sequence of
    rounds, one per turn of the loop. *)
Lemma generateTickets_returned fuel data ctx w t :
  (generateTickets env fuel data ctx w).1 = Returned t ->
  exists uid ud atts,
    auth ctx = Some uid /\ users w !! uid = Some ud /\
    num_gtb (ToNumber (amount data)) (num_of_Z 10)
      || num_ltb (ToNumber (amount data)) (num_of_Z 1) = false /\
    trace (generateTickets env fuel data ctx w).2
      = trace w ++ flat_map attempt_events atts /\
    t = collect_tickets ∅ atts /\
    (forall j, (j < length atts)%nat ->
       num_ltb (num_of_Z (Z.of_nat j)) (ToNumber (amount data)) = true) /\
    num_ltb (num_of_Z (Z.of_nat (length atts))) (ToNumber (amount data)) = false.
Proof.
  unfold generateTickets. rewrite bind_run. unfold checkAuthentication.
  destruct (auth ctx) as [uid|]; simpl; [|done].
  destruct (num_gtb (ToNumber (amount data)) (num_of_Z 10)
            || num_ltb (ToNumber (amount data)) (num_of_Z 1)) eqn:Hval; [done|].
  rewrite bind_run, read_shopTag_run.
  destruct (users w !! uid) as [ud|] eqn:Hud; [|done].
  destruct (issue_loop_trace env fuel fuel 0 (amount data) (shopTag ud)
              VServerTimestamp (email data) (memo data) ∅ (settle env w).2)
    as (atts & tailc & Htr & _ & _ & _ & Hiter & Hout).
  cbv zeta in *. intros Hret. rewrite Hret in Hout.
  destruct Hout as (-> & -> & Hend).
  exists uid, ud, atts. simpl in Htr. rewrite app_nil_r in Htr.
  repeat split; try done.
Qed.

Lemma ceiling_count (q : Q) (n : nat) :
  (1 <= q)%Q ->
  (forall j, (j < n)%nat -> (inject_Z (Z.of_nat j) < q)%Q) ->
  (q <= inject_Z (Z.of_nat n))%Q ->
  Z.of_nat n = Qceiling q.
Proof.
  intros H1 Hlt Hge.
  pose proof (Qle_ceiling q) as Hc1. pose proof (Qceiling_lt q) as Hc2.
  assert (Qceiling q <= Z.of_nat n)%Z.
  { destruct (Z_lt_le_dec (Z.of_nat n) (Qceiling q)) as [Hn|]; [|done].
    exfalso. assert (inject_Z (Z.of_nat n) <= inject_Z (Qceiling q - 1))%Q
      by (rewrite <- Zle_Qle; lia).
    lra. }
  assert (Z.of_nat n <= Qceiling q)%Z.
  { destruct n as [|n].
    - assert (inject_Z 0 < inject_Z (Qceiling q))%Q as Hpos
        by (change (inject_Z 0) with 0%Q; lra).
      rewrite <- Zlt_Qlt in Hpos. lia.
    - specialize (Hlt n ltac:(lia)).
      assert (inject_Z (Z.of_nat n) < inject_Z (Qceiling q))%Q as Hpos by lra.
      rewrite <- Zlt_Qlt in Hpos. lia. }
  lia.
Qed.

End BatchFacts.

(** X17. A call of [generateTickets] that returns, on a numeric amount
    [q], has written one ticket per turn of its loop, that is the
    amount rounded up to the next integer (the amount itself when it is
    an integer between 1 and 10), and the returned mapping has at most
    that many entries. *)
Theorem generateTickets_writes_amount_rounded_up
    `{SB : StringBuiltins} (env : Functions.environment) (fuel : nat)
    (data : Functions.request) (ctx : Functions.context) (w : Functions.server)
    (q : Q) (t : gmap jsstring fields) :
  ToNumber (Functions.amount data) = Fin q ->
  let r := Functions.generateTickets env fuel data ctx w in
  r.1 = Functions.Returned t ->
  exists codes,
    Functions.written_codes (Functions.trace r.2)
    = Functions.written_codes (Functions.trace w) ++ codes /\
    Z.of_nat (length codes) = Qceiling q /\
    (1 <= Qceiling q <= 10)%Z /\
    (forall code, is_Some (t !! code) -> code ∈ codes) /\
    (forall z, q = inject_Z z -> Z.of_nat (length codes) = z).
Proof.
  intros Hq r Hret.
  destruct (generateTickets_returned env fuel data ctx w t Hret)
    as (uid & ud & atts & _ & _ & Hval & Htr & Ht & Hiter & Hend).
  fold r in Htr. rewrite Hq in *.
  apply orb_false_iff in Hval as [Hle10 Hge1].
  unfold num_gtb, num_ltb, num_of_Z in Hle10, Hge1, Hiter, Hend.
  apply negb_false_iff, Qle_bool_iff in Hle10, Hge1, Hend.
  assert (Z.of_nat (length atts) = Qceiling q) as Hlen.
  { apply ceiling_count; [exact Hge1| |exact Hend].
    intros j Hj. specialize (Hiter j Hj).
    apply negb_true_iff, not_true_iff_false in Hiter.
    apply Qnot_le_lt. intros Hle. apply Hiter. by apply Qle_bool_iff. }
  exists (Functions.issued <$> atts).
  rewrite Htr, written_codes_app, written_codes_rounds, length_fmap.
  split; [done|]. split; [done|]. split; [|split].
  - pose proof (Qceiling_resp_le _ _ Hge1) as H1.
    pose proof (Qceiling_resp_le _ _ Hle10) as H10.
    rewrite Qceiling_Z in H1, H10. lia.
  - intros code [d Hd]. rewrite Ht in Hd.
    apply collect_tickets_lookup in Hd as [Hd|(a & Ha & <- & _)].
    + by rewrite lookup_empty in Hd.
    + apply list_elem_of_fmap. by exists a.
  - intros z ->. rewrite Hlen. apply Qceiling_Z.
Qed.

Section PromptStore.

Import Functions Batch.
Context `{SB : StringBuiltins} (env : environment).

Lemma eventual_settle w : eventual (settle env w).2 = eventual w.
Proof.
  unfold eventual. simpl. rewrite <- foldl_app. by rewrite take_drop.
Qed.

Lemma settle_prompt w :
  prompt env -> length (inflight w) <= 1 ->
  inflight (settle env w).2 = [] /\ ticket_info (settle env w).2 = eventual w.
Proof.
  intros Hp Hlen. specialize (Hp (reads w)). simpl. split.
  - apply drop_ge. lia.
  - unfold eventual. by rewrite take_ge by lia.
Qed.

Lemma eventual_absent w x : eventual w !! x = None -> ticket_info w !! x = None.
Proof.
  intros Hx. apply eq_None_not_Some. intros Hs.
  apply (apply_writes_mono (ticket_info w) (inflight w)) in Hs.
  unfold eventual in Hx. rewrite Hx in Hs. by destruct Hs.
Qed.

Lemma log_inflight e w : inflight (log e w).2 = inflight w.
Proof. done. Qed.

Lemma log_ticket_info e w : ticket_info (log e w).2 = ticket_info w.
Proof. done. Qed.

Lemma ticket_exists_eq code w :
  ticket_exists env code w
  = (Returned (doc_exists (ticket_info (settle env w).2) code),
     (log (Checked code (doc_exists (ticket_info (settle env w).2) code))
        (settle env w).2).2).
Proof. done. Qed.

(** With a prompt store and at most one write in flight, the loop leaves
    no write in flight and has checked against everything written so
    far. *)
Lemma resample_prompt fuel : forall tag code w,
  prompt env -> length (inflight w) <= 1 ->
  inflight (resample env fuel tag code w).2 = [] /\
  ticket_info (resample env fuel tag code w).2 = eventual w.
Proof.
  induction fuel as [|fuel IH]; intros tag code w Hp Hlen; cbn [resample];
    rewrite bind_run, ticket_exists_eq;
    destruct (settle_prompt w Hp Hlen) as [Hin Hti];
    destruct (doc_exists (ticket_info (settle env w).2) code); try done.
  set (w1 := (log _ _).2).
  destruct (random_suffix_run env tag w1) as (w2 & _ & Hrun & _ & Hti2 & Hin2 & _).
  rewrite Hrun.
  destruct (IH tag (sample_code env tag (drawn w1)) w2 Hp) as [H1 H2].
  { rewrite Hin2. unfold w1. rewrite log_inflight, Hin. simpl. lia. }
  split; [exact H1|]. rewrite H2. unfold eventual. rewrite Hin2, Hti2.
  unfold w1. rewrite log_inflight, log_ticket_info, Hin. exact Hti.
Qed.

Lemma unique_code_prompt fuel tag w :
  prompt env -> length (inflight w) <= 1 ->
  inflight (unique_code env fuel tag w).2 = [] /\
  ticket_info (unique_code env fuel tag w).2 = eventual w.
Proof.
  intros Hp Hlen. unfold unique_code.
  destruct (random_suffix_run env tag w) as (w1 & _ & Hrun & _ & Hti & Hin & _).
  rewrite Hrun.
  destruct (resample_prompt fuel tag (sample_code env tag (drawn w)) w1 Hp)
    as [H1 H2]; [by rewrite Hin|].
  split; [exact H1|]. rewrite H2. unfold eventual. by rewrite Hin, Hti.
Qed.

(** With a prompt store the codes a returning loop writes are pairwise
    distinct and new to the store, writes in flight included, and they
    are the keys the loop adds to the mapping. *)
Lemma issue_loop_distinct fuel :
  forall retries i amount tag ts email memo tickets w t,
  prompt env -> length (inflight w) <= 1 ->
  (issue_loop env fuel retries i amount tag ts email memo tickets w).1 = Returned t ->
  exists codes,
    written_codes (trace (issue_loop env fuel retries i amount tag ts email memo tickets w).2)
    = written_codes (trace w) ++ codes /\
    NoDup codes /\
    Forall (fun c => eventual w !! c = None) codes /\
    (forall c, is_Some (t !! c) <-> is_Some (tickets !! c) \/ c ∈ codes).
Proof.
  induction fuel as [|fuel IH];
    intros retries i amount tag ts email memo tickets w t Hp Hlen;
    cbn [issue_loop];
    destruct (num_ltb (num_of_Z i) (ToNumber amount)); try done.
  - intros [= <-]. exists []. rewrite app_nil_r.
    repeat split; [constructor|constructor|by left|].
    intros [?|?%elem_of_nil]; done.
  - rewrite bind_run.
    destruct (unique_code_trace env retries tag w) as (n & _ & Hres).
    destruct (unique_code_prompt retries tag w Hp Hlen) as [Hin Hti].
    destruct (unique_code env retries tag w) as [[c| |] w1]; simpl in *; [|done..].
    destruct Hres as (_ & _ & Htr & Hnone & _).
    rewrite Hti in Hnone.
    rewrite bind_run. cbn [set_ticket].
    set (w2 := {| users := users w1; ticket_info := _; inflight := _;
                  trace := _; reads := _; drawn := _ |}).
    assert (eventual w2 = <[c := ticketData ts email memo]> (eventual w)) as Hev.
    { unfold eventual, w2. simpl. rewrite Hin, Hti. done. }
    intros Hret.
    destruct (IH retries (i + 1)%Z amount tag ts email memo
                (<[c := ticketData ts email memo]> tickets) w2 t Hp)
      as (codes & Hw & Hnd & Hnew & Hdom); [unfold w2; simpl; rewrite Hin; simpl; lia|done|].
    assert (written_codes (trace w2) = written_codes (trace w) ++ [c]) as Hw2.
    { unfold w2. simpl. rewrite Htr, !written_codes_app, written_codes_collisions.
      by rewrite app_nil_r. }
    rewrite Hev in Hnew. rewrite Forall_forall in Hnew.
    exists (c :: codes). split; [|split; [|split]].
    + rewrite Hw, Hw2. by rewrite <- app_assoc.
    + apply NoDup_cons. split; [|done]. intros Hc. specialize (Hnew c Hc).
      by rewrite lookup_insert_eq in Hnew.
    + apply Forall_cons. split; [done|]. apply Forall_forall. intros x Hx.
      specialize (Hnew x Hx). destruct (decide (c = x)) as [->|Hne].
      * by rewrite lookup_insert_eq in Hnew.
      * by rewrite lookup_insert_ne in Hnew.
    + intros x. rewrite Hdom, elem_of_cons.
      destruct (decide (c = x)) as [->|Hne].
      * rewrite lookup_insert_eq. split; [intros _; right; by left|intros _; left; by eexists].
      * rewrite lookup_insert_ne by done. split; intros [?|?]; auto.
        destruct H as [?|?]; [congruence|auto].
  - by intros [= <-]; exists []; rewrite app_nil_r;
      repeat split; [constructor|constructor|by left|intros [?|?%elem_of_nil]].
Qed.

End PromptStore.

(** X18. When the store applies each write before it serves the next read
    (and at most one write is in flight at the start), the codes written
    by a call of [generateTickets] that returns are pairwise distinct and
    none of them was in the store or in flight before; the returned
    mapping has exactly these codes as keys, one entry per written
    ticket. *)
Theorem generateTickets_issues_distinct_new_codes
    `{SB : StringBuiltins} (env : Functions.environment) (fuel : nat)
    (data : Functions.request) (ctx : Functions.context) (w : Functions.server)
    (t : gmap jsstring fields) :
  Batch.prompt env ->
  length (Functions.inflight w) <= 1 ->
  let r := Functions.generateTickets env fuel data ctx w in
  r.1 = Functions.Returned t ->
  exists codes,
    Functions.written_codes (Functions.trace r.2)
    = Functions.written_codes (Functions.trace w) ++ codes /\
    NoDup codes /\
    (forall c, c ∈ codes ->
       Functions.ticket_info w !! c = None /\ Batch.eventual w !! c = None) /\
    (forall c, is_Some (t !! c) <-> c ∈ codes) /\
    size t = length codes.
Proof.
  intros Hp Hlen r Hret. subst r. unfold Functions.generateTickets in *.
  rewrite bind_run in *. unfold Functions.checkAuthentication in *.
  destruct (Functions.auth ctx) as [uid|]; simpl in *; [|done].
  destruct (num_gtb _ _ || num_ltb _ _); [done|].
  rewrite bind_run, read_shopTag_run in *.
  destruct (Functions.users w !! uid) as [ud|]; [|done].
  destruct (settle_prompt env w Hp Hlen) as [Hin Hti].
  destruct (issue_loop_distinct env fuel fuel 0 (Functions.amount data)
              (Functions.shopTag ud) VServerTimestamp (Functions.email data)
              (Functions.memo data) ∅ (Functions.settle env w).2 t Hp)
    as (codes & Hw & Hnd & Hnew & Hdom); [rewrite Hin; simpl; lia|done|].
  exists codes. split; [exact Hw|]. split; [done|].
  rewrite eventual_settle in Hnew. rewrite Forall_forall in Hnew.
  assert (forall c, is_Some (t !! c) <-> c ∈ codes) as Hkeys.
  { intros c. rewrite Hdom. rewrite lookup_empty. split; [intros [[? ?]|?]|]; auto; done. }
  split; [|split; [done|]].
  - intros c Hc. split; [apply eventual_absent|]; by apply Hnew.
  - rewrite <- (size_dom (D := gset jsstring)).
    rewrite <- (size_list_to_set (C := gset jsstring) codes Hnd).
    f_equal. apply set_eq. intros c.
    rewrite elem_of_dom, elem_of_list_to_set. apply Hkeys.
Qed.

(** ** Creating a prize *)

Section AddNewPrize.

Import Prizes.
Context `{NB : NumberBuiltins} (assign : collection -> jsstring).

Lemma addNewPrize_accepted data ctx w uid :
  Functions.auth ctx = Some uid ->
  num_ltb (parseInt (quantity data)) (num_of_Z 0)
    || num_gtb (parseInt (quantity data)) (num_of_Z 999) = false ->
  addNewPrize assign data ctx w
  = (Functions.Returned
       {| id := assign (prizes w);
          prizeMetaData := metaData VServerTimestamp uid (parseInt (quantity data));
          prizeInfoData := infoData (description data) (image data) (name data)
                             VServerTimestamp |},
     {| prizes := <[assign (prizes w) :=
                      metaData VServerTimestamp uid (parseInt (quantity data))]> (prizes w);
        prize_info := prize_info w;
        inflight := inflight w ++
          [(assign (prizes w),
            infoData (description data) (image data) (name data) VServerTimestamp)] |}).
Proof. intros Hauth Hok. unfold addNewPrize. by rewrite Hauth, Hok. Qed.

End AddNewPrize.



(** X20. A quantity that [parseInt] turns into NaN, as a missing one, is
    not caught by the range check of [addNewPrize]: for an authenticated
    caller the call returns and the metadata document is stored with
    quantity NaN. *)
Theorem addNewPrize_NaN_quantity_passes
    `{NB : Prizes.NumberBuiltins} (assign : collection -> jsstring)
    (data : Prizes.request) (ctx : Functions.context) (w : Prizes.store)
    (uid : jsstring) :
  Functions.auth ctx = Some uid ->
  Prizes.parseInt (Prizes.quantity data) = NaN ->
  let r := Prizes.addNewPrize assign data ctx w in
  exists p,
    r.1 = Functions.Returned p /\
    Prizes.prizes r.2 !! Prizes.id p = Some (Prizes.prizeMetaData p) /\
    Prizes.prizeMetaData p !! "quantity" = Some (VNum NaN).
Proof.
  intros Hauth Hnan r. subst r.
  rewrite (addNewPrize_accepted assign data ctx w uid Hauth) by (by rewrite Hnan).
  eexists. split; [done|]. simpl. rewrite lookup_insert_eq, Hnan.
  by split.
Qed.

(** X21. When [addNewPrize] returns, the metadata document is stored
    under the key the store assigned, with the caller as [creatorUserID],
    and the returned id is that key; the info document is only on its
    way, under the same key, and ["prize-info"] is as before. Once the
    store has applied the writes in flight, ["prize-info"] holds the
    info document under that key. No other metadata document changes. *)
Theorem addNewPrize_writes_pair_under_one_key
    `{NB : Prizes.NumberBuiltins} (assign : collection -> jsstring)
    (data : Prizes.request) (ctx : Functions.context) (w : Prizes.store)
    (p : Prizes.created) :
  let r := Prizes.addNewPrize assign data ctx w in
  r.1 = Functions.Returned p ->
  Prizes.id p = assign (Prizes.prizes w) /\
  Prizes.prizes r.2 !! Prizes.id p = Some (Prizes.prizeMetaData p) /\
  (exists uid, Functions.auth ctx = Some uid /\
     Prizes.prizeMetaData p !! "creatorUserID" = Some (VStr uid)) /\
  (forall k, k <> Prizes.id p -> Prizes.prizes r.2 !! k = Prizes.prizes w !! k) /\
  Prizes.prize_info r.2 = Prizes.prize_info w /\
  Prizes.inflight r.2 = Prizes.inflight w ++ [(Prizes.id p, Prizes.prizeInfoData p)] /\
  Prizes.prize_info (Prizes.land (length (Prizes.inflight r.2)) r.2) !! Prizes.id p
  = Some (Prizes.prizeInfoData p) /\
  (Prizes.prizeInfoData p !! "name" = Some (Prizes.name data) /\
   Prizes.prizeInfoData p !! "description" = Some (Prizes.description data) /\
   Prizes.prizeInfoData p !! "image" = Some (Prizes.image data)).
Proof.
  intros r Hret. subst r. unfold Prizes.addNewPrize in *.
  destruct (Functions.auth ctx) as [uid|]; [|done].
  destruct (num_ltb _ _ || num_gtb _ _); [done|].
  simpl in *. injection Hret as <-. simpl.
  split; [done|]. split; [apply lookup_insert_eq|].
  split; [by exists uid|]. split; [intros k Hk; by apply lookup_insert_ne|].
  split; [done|]. split; [done|]. split; [|done].
  rewrite take_ge by done. rewrite foldl_snoc. apply lookup_insert_eq.
Qed.

Section PrizeRoundTrip.

Import Session.

Lemma getPrizesGeneratedByUser_cold_rejects fs uid s k d :
  Db.prizeData (Db.cache (client s)) = None ->
  prizes fs !! k = Some d ->
  d !! "creatorUserID" = Some (VStr uid) ->
  prize_info fs !! k = None ->
  (getPrizesGeneratedByUser fs uid s).1 = Rejected.
Proof.
  intros Hcold Hk Hd Hnone. unfold getPrizesGeneratedByUser.
  set (s0 := sent _ s).
  change (Db.prizeData (Db.cache (client s0))) with (Db.prizeData (Db.cache (client s))).
  rewrite Hcold.
  assert ((k, d) ∈ queryCreator (prizes fs) uid) as Hin.
  { apply elem_of_queryCreator. split; [done|].
    unfold created_by. simpl. rewrite Hd. by apply bool_decide_eq_true. }
  destruct (join_prizes_rejects fs _ 0%Z [] s0 (k, d) Hin Hnone) as [Hrej _].
  by destruct (join_prizes _ _ _ _ _) as [[out|] s1].
Qed.

Lemma getPrizesGeneratedByUser_cold_resolves fs uid s :
  Db.prizeData (Db.cache (client s)) = None ->
  (forall k d, prizes fs !! k = Some d -> d !! "creatorUserID" = Some (VStr uid) ->
     is_Some (prize_info fs !! k)) ->
  exists data,
    (getPrizesGeneratedByUser fs uid s).1 = Resolved data /\
    Db.read_records (Db.heap (client (getPrizesGeneratedByUser fs uid s).2)) data
    = Some <$> imap (joined fs) (queryCreator (prizes fs) uid).
Proof.
  intros Hcold Hinfo.
  assert (exists data, (getPrizesGeneratedByUser fs uid s).1 = Resolved data) as [data Hd].
  { unfold getPrizesGeneratedByUser. set (s0 := sent _ s).
    change (Db.prizeData (Db.cache (client s0))) with (Db.prizeData (Db.cache (client s))).
    rewrite Hcold.
    assert (Forall (fun kd => is_Some (prize_info fs !! kd.1))
              (queryCreator (prizes fs) uid)) as Hall.
    { apply Forall_forall. intros [k d] Hin. simpl.
      apply elem_of_queryCreator in Hin as [H1 H2]. eapply Hinfo; [done|].
      unfold created_by in H2. simpl in H2.
      destruct (d !! "creatorUserID") as [[]|]; try done.
      apply bool_decide_eq_true in H2. by subst. }
    destruct (join_prizes_resolves fs _ 0 [] s0 [] Hall eq_refl) as (out & Hout & _).
    change (Z.of_nat 0) with 0%Z in *. rewrite Hout. by exists out. }
  exists data. split; [done|]. by apply getPrizesGeneratedByUser_resolved.
Qed.

Lemma joined_fields fs i k d info :
  prize_info fs !! k = Some info ->
  joined fs i (k, d) !! "id" = Some (VNum (num_of_Z (Z.of_nat i + 1))) /\
  joined fs i (k, d) !! "docId" = Some (VStr k) /\
  joined fs i (k, d) !! "name" = Some (field info "name") /\
  joined fs i (k, d) !! "quantity" = Some (field d "quantity").
Proof.
  intros Hi. unfold joined, fullPrizeData. simpl. rewrite Hi. simpl.
  rewrite num_add_of_Z. done.
Qed.

End PrizeRoundTrip.

(** X22. A prize just created is not yet listable: while its info write
    is in flight, a creator's listing on an unset cache rejects, the new
    prize having its metadata document only. Once the store has applied
    the write, and every prize of the creator has an info document, the
    listing resolves and shows the new prize under its id with the name
    and the quantity it was created with. *)
Theorem addNewPrize_then_listing
    `{NB : Prizes.NumberBuiltins} (assign : collection -> jsstring)
    (data : Prizes.request) (ctx : Functions.context) (w : Prizes.store)
    (p : Prizes.created) (uid : jsstring)
    (users : gmap jsstring Functions.userDoc) (tickets : collection)
    (s : Session.session) :
  Functions.auth ctx = Some uid ->
  Db.prizeData (Db.cache (Session.client s)) = None ->
  let r := Prizes.addNewPrize assign data ctx w in
  r.1 = Functions.Returned p ->
  let landed := Prizes.land (length (Prizes.inflight r.2)) r.2 in
  (Prizes.prize_info w !! Prizes.id p = None ->
     (Session.getPrizesGeneratedByUser (Prizes.client_view users tickets r.2) uid s).1
     = Session.Rejected) /\
  ((forall k d, Prizes.prizes landed !! k = Some d ->
      d !! "creatorUserID" = Some (VStr uid) ->
      is_Some (Prizes.prize_info landed !! k)) ->
     exists listed i l o,
       let q := Session.getPrizesGeneratedByUser
                  (Prizes.client_view users tickets landed) uid s in
       q.1 = Session.Resolved listed /\
       listed !! i = Some (VRef l) /\
       Db.heap (Session.client q.2) !! l = Some o /\
       o !! "docId" = Some (VStr (Prizes.id p)) /\
       o !! "id" = Some (VNum (num_of_Z (Z.of_nat i + 1))) /\
       o !! "name" = Some (Prizes.name data) /\
       o !! "quantity" = Some (VNum (Prizes.parseInt (Prizes.quantity data)))).
Proof.
  intros Hauth Hcold r Hret landed.
  assert (r = Prizes.addNewPrize assign data ctx w) as Hr by done.
  unfold Prizes.addNewPrize in Hr. rewrite Hauth in Hr.
  destruct (num_ltb _ _ || num_gtb _ _); [by rewrite Hr in Hret|].
  rewrite Hr in Hret. simpl in Hret. injection Hret as <-. simpl.
  set (key := assign (Prizes.prizes w)) in *.
  set (meta := Prizes.metaData VServerTimestamp uid (Prizes.parseInt (Prizes.quantity data))) in *.
  set (info := Prizes.infoData _ _ _ _) in *.
  split.
  - intros Hnone.
    apply (getPrizesGeneratedByUser_cold_rejects _ uid s key meta Hcold).
    + rewrite Hr. simpl. apply lookup_insert_eq.
    + done.
    + rewrite Hr. simpl. exact Hnone.
  - intros Hall.
    assert (Prizes.prizes landed !! key = Some meta) as Hmeta
      by (unfold landed; rewrite Hr; simpl; apply lookup_insert_eq).
    assert (Prizes.prize_info landed !! key = Some info) as Hinfo.
    { unfold landed. rewrite Hr. simpl. rewrite take_ge by done.
      rewrite foldl_snoc. apply lookup_insert_eq. }
    set (fs := Prizes.client_view users tickets landed).
    destruct (getPrizesGeneratedByUser_cold_resolves fs uid s Hcold Hall)
      as (listed & Hres & Hrec).
    assert ((key, meta) ∈ Session.queryCreator (Session.prizes fs) uid) as Hin.
    { apply elem_of_queryCreator. split; [exact Hmeta|].
      unfold Session.created_by. simpl. by apply bool_decide_eq_true. }
    apply list_elem_of_lookup in Hin as [i Hi].
    assert (imap (Session.joined fs) (Session.queryCreator (Session.prizes fs) uid) !! i
            = Some (Session.joined fs i (key, meta))) as Hj
      by (rewrite list_lookup_imap, Hi; done).
    assert (is_Some (listed !! i)) as [v Hv].
    { apply lookup_lt_is_Some.
      assert (length (Db.read_records
                        (Db.heap (Session.client (Session.getPrizesGeneratedByUser fs uid s).2))
                        listed) = length listed) as <-
        by (unfold Db.read_records; apply length_fmap).
      rewrite Hrec, length_fmap. by eapply lookup_lt_Some. }
    destruct (read_records_lookup _ _ _ _ _ Hrec Hv) as (l & o & -> & Hl & Ho).
    rewrite Hj in Ho. injection Ho as <-.
    exists listed, i, l, (Session.joined fs i (key, meta)). cbv zeta.
    split; [done|]. split; [done|]. split; [done|].
    destruct (joined_fields fs i key meta info Hinfo) as (H1 & H2 & H3 & H4).
    rewrite H1, H2, H3, H4. done.
Qed.

(** ** Running out of fuel *)


(** ** The theorems at work on the shop scenario *)

Lemma getUserShopTag_caches_first_tag_witness :
  let r := Session.getUserShopTag Scenario.shop Functions.alice_uid
             Session.initial_session in
  r.1 = Some (js "alice") /\
  Session.getUserShopTag Scenario.shop Scenario.bob_uid r.2 = (Some (js "alice"), r.2).
Proof.
  intros r.
  destruct (getUserShopTag_caches_first_tag Scenario.shop Functions.alice_uid
              Session.initial_session
              {| Functions.createdAt := VServerTimestamp; Functions.shopTag := js "alice" |}
              eq_refl ltac:(vm_compute; reflexivity) ltac:(discriminate))
    as (H1 & _ & _ & H2).
  exact (conj H1 (H2 Scenario.shop Scenario.bob_uid)).
Defined.

Lemma getUserShopTag_uncached_results_witness :
  (Session.getUserShopTag Scenario.shop Scenario.bob_uid Session.initial_session).1 = None /\
  (Session.getUserShopTag Scenario.shop Scenario.anon_uid Session.initial_session).1
  = Some [].
Proof.
  destruct (getUserShopTag_uncached_results Scenario.shop Scenario.bob_uid
              Session.initial_session eq_refl) as [Hmissing _].
  destruct (Hmissing ltac:(vm_compute; reflexivity)) as (H1 & _).
  destruct (getUserShopTag_uncached_results Scenario.shop Scenario.anon_uid
              Session.initial_session eq_refl) as [_ Hempty].
  destruct (Hempty {| Functions.createdAt := VServerTimestamp; Functions.shopTag := [] |}
              ltac:(vm_compute; reflexivity) eq_refl) as (H2 & _).
  exact (conj H1 H2).
Defined.

Lemma getTicketsGeneratedByUser_lists_shop_tickets_witness :
  let r := Session.getTicketsGeneratedByUser Scenario.shop Functions.alice_uid
             Session.initial_session in
  exists data kds,
    r.1 = Session.Resolved data /\
    Db.read_records (Db.heap (Session.client r.2)) data = Some <$> imap Db.tagged kds /\
    (js "alice-A1B2C3", ∅) ∈ kds /\
    (forall doc, (js "bob-123456", doc) ∉ kds) /\
    Db.scans (Session.client r.2) = [(js "alice", js "alicf")].
Proof.
  intros r.
  destruct (getTicketsGeneratedByUser_lists_shop_tickets Scenario.shop
              Functions.alice_uid Session.initial_session
              {| Functions.createdAt := VServerTimestamp; Functions.shopTag := js "alice" |}
              (js "alic") 101%Z eq_refl eq_refl ltac:(vm_compute; reflexivity)
              eq_refl ltac:(lia))
    as (data & kds & H1 & H2 & H3 & _ & _ & H4).
  exists data, kds. split; [exact H1|]. split; [exact H2|]. split; [|split].
  - apply H3. split; [vm_compute; reflexivity|]. exists (js "-A1B2C3"). reflexivity.
  - intros doc [_ [x Hx]]%H3. discriminate Hx.
  - exact H4.
Defined.

Lemma getTicketsGeneratedByUser_rejects_without_user_doc_witness :
  let r := Session.getTicketsGeneratedByUser Scenario.shop Scenario.bob_uid
             Session.initial_session in
  r.1 = Session.Rejected /\ Session.alerts r.2 = [js "No shop tag set!"].
Proof.
  intros r.
  destruct (getTicketsGeneratedByUser_rejects_without_user_doc Scenario.shop
              Scenario.bob_uid Session.initial_session eq_refl
              ltac:(vm_compute; reflexivity)) as (H1 & H2 & _).
  exact (conj H1 H2).
Defined.

Lemma getTicketsGeneratedByUser_serves_cached_list_to_any_user_witness :
  let r := Session.getTicketsGeneratedByUser Scenario.shop Functions.alice_uid
             Session.initial_session in
  exists data,
    r.1 = Session.Resolved data /\ length data = 3 /\
    Session.getTicketsGeneratedByUser Scenario.shop Scenario.bob_uid r.2
    = (Session.Resolved data, r.2).
Proof.
  intros r.
  assert (exists data, r.1 = Session.Resolved data /\ length data = 3)
    as (data & Hd & Hl) by (vm_compute; eexists; split; reflexivity).
  exists data. split; [exact Hd|]. split; [exact Hl|].
  apply (getTicketsGeneratedByUser_serves_cached_list_to_any_user Scenario.shop
           Functions.alice_uid Session.initial_session data Hd).
  - intros ->. discriminate Hl.
  - vm_compute. reflexivity.
Defined.

Lemma getPrizesGeneratedByUser_joins_user_prizes_witness :
  let r := Session.getPrizesGeneratedByUser Scenario.shop Functions.alice_uid
             Session.initial_session in
  exists data kds,
    r.1 = Session.Resolved data /\
    Db.read_records (Db.heap (Session.client r.2)) data
    = Some <$> imap (Session.joined Scenario.shop) kds /\
    (js "prize-2", Scenario.prize_of Functions.alice_uid 1) ∈ kds /\
    Session.calls r.2
    = Session.QueryCreator Functions.alice_uid
        :: (Session.GetDoc "prize-info" <$> kds.*1).
Proof.
  intros r.
  destruct (getPrizesGeneratedByUser_joins_user_prizes Scenario.shop
              Functions.alice_uid Session.initial_session eq_refl)
    as (data & kds & H1 & H2 & H3 & _ & _ & _ & H4).
  - intros k d Hk Hc.
    unfold Scenario.shop in *. cbn [Session.prizes Session.prize_info] in *.
    destruct (decide (k = js "prize-1")) as [->|N1]; [by eexists|].
    destruct (decide (k = js "prize-2")) as [->|N2]; [by eexists|].
    destruct (decide (k = js "prize-3")) as [->|N3].
    + rewrite lookup_insert_ne, lookup_insert_ne, lookup_insert_eq in Hk by done.
      injection Hk as <-. discriminate Hc.
    + rewrite !lookup_insert_ne in Hk by done. discriminate Hk.
  - exists data, kds. split; [exact H1|]. split; [exact H2|]. split; [|exact H4].
    apply H3. split; vm_compute; reflexivity.
Defined.

Lemma getPrizesGeneratedByUser_serves_cached_list_witness :
  let r := Session.getPrizesGeneratedByUser Scenario.shop Functions.alice_uid
             Session.initial_session in
  exists data,
    r.1 = Session.Resolved data /\ length data = 2 /\
    (Session.getPrizesGeneratedByUser Scenario.shop Scenario.bob_uid r.2).1
    = Session.Resolved data.
Proof.
  intros r.
  assert (exists data, r.1 = Session.Resolved data /\ length data = 2)
    as (data & Hd & Hl) by (vm_compute; eexists; split; reflexivity).
  exists data. split; [exact Hd|]. split; [exact Hl|].
  exact (f_equal fst
           (getPrizesGeneratedByUser_serves_cached_list Scenario.shop
              Functions.alice_uid Session.initial_session data eq_refl Hd
              Scenario.shop Scenario.bob_uid)).
Defined.

Lemma getPrizesGeneratedByUser_rejects_on_missing_info_witness :
  let r := Session.getPrizesGeneratedByUser Scenario.shop Scenario.bob_uid
             Session.initial_session in
  r.1 = Session.Rejected /\
  Db.prizeData (Db.cache (Session.client r.2)) = None.
Proof.
  intros r.
  destruct (getPrizesGeneratedByUser_rejects_on_missing_info Scenario.shop
              Scenario.bob_uid Session.initial_session (js "prize-3")
              (Scenario.prize_of Scenario.bob_uid 2) eq_refl
              ltac:(vm_compute; reflexivity) ltac:(vm_compute; reflexivity)
              ltac:(vm_compute; reflexivity)) as (H1 & H2 & _).
  exact (conj H1 H2).
Defined.

Lemma ticket_cache_numbered_by_position_witness :
  let r := Db.getTicketsByPrefix (Session.ticket_info Scenario.shop) (js "alice")
             Scenario.two_fresh in
  let r' := Db.saveTicketsToMemory [1%positive; 2%positive] Scenario.two_fresh in
  Session.numbered (Db.heap r.2) r.1 /\
  r'.1 = [VRef 1%positive; VRef 2%positive] /\
  Session.numbered (Db.heap r'.2) r'.1.
Proof.
  intros r r'.
  destruct (ticket_cache_numbered_by_position (Session.ticket_info Scenario.shop)
              (js "alice") [1%positive; 2%positive] [] Scenario.two_fresh) as [H1 H2].
  split; [exact (H1 eq_refl)|].
  destruct H2 as (Ha & _ & Hc).
  - reflexivity.
  - intros i v Hi. destruct i; discriminate Hi.
  - apply NoDup_cons. split; [|apply NoDup_singleton].
    intros Hin%list_elem_of_singleton. discriminate Hin.
  - intros l Hl. split; [|apply not_elem_of_nil].
    apply elem_of_cons in Hl as [->|Hl]; [by eexists|].
    apply list_elem_of_singleton in Hl as ->. by eexists.
  - exact (conj Ha Hc).
Defined.

Lemma saveTicketsToMemory_renumbers_cached_record_witness :
  let r := Db.saveTicketsToMemory [1%positive] Scenario.one_cached in
  r.1 = [VRef 1%positive; VRef 1%positive] /\
  Session.record_id (Db.heap r.2) (VRef 1%positive) = Some (VNum (num_of_Z 2)) /\
  ~ Session.numbered (Db.heap r.2) r.1.
Proof.
  intros r.
  destruct (saveTicketsToMemory_renumbers_cached_record [VRef 1%positive]
              Scenario.one_cached 0 1%positive Scenario.first_record
              eq_refl eq_refl ltac:(vm_compute; reflexivity))
    as (H1 & _ & _ & H2 & H3).
  exact (conj H1 (conj H2 H3)).
Defined.

Lemma saveTicketsToMemory_then_getTicketsByPrefix_skips_store_witness :
  let r := Db.saveTicketsToMemory [1%positive] Scenario.two_fresh in
  Db.getTicketsByPrefix (Session.ticket_info Scenario.shop) (js "alice") r.2
  = ([VRef 1%positive], r.2).
Proof.
  intros r.
  destruct (saveTicketsToMemory_then_getTicketsByPrefix_skips_store []
              [1%positive] Scenario.two_fresh eq_refl ltac:(discriminate))
    as (_ & _ & H).
  exact (H (Session.ticket_info Scenario.shop) (js "alice")).
Defined.

Lemma getTicketsByPrefix_wraps_on_last_unit_FFFF_witness :
  let db := <[js "alice" ++ [65535%Z; 45%Z] := ∅]> (Session.ticket_info Scenario.shop) in
  (Db.getTicketsByPrefix db (js "alice" ++ [65535%Z]) Db.initial_client).1 = [].
Proof.
  intros db.
  destruct (getTicketsByPrefix_wraps_on_last_unit_FFFF db (js "alice")
              Db.initial_client eq_refl) as (_ & H & _).
  exact H.
Defined.


Lemma userLoggedIn_error_paths_witness :
  Functions.userLoggedIn (SB := ascii_builtins) Functions.alice_env Scenario.anonymous
    Functions.empty_server
  = (Functions.Thrown Functions.unauthenticated, Functions.empty_server) /\
  (Functions.userLoggedIn (SB := ascii_builtins) Scenario.phone_env Functions.alice_ctx
     Functions.alice_server).1 = Functions.Returned "success"%string /\
  (Functions.userLoggedIn (SB := ascii_builtins) Scenario.phone_env Functions.alice_ctx
     Functions.empty_server).1 = Functions.Thrown Functions.internal.
Proof.
  destruct (userLoggedIn_error_paths (SB := ascii_builtins) Functions.alice_env
              Scenario.anonymous Functions.empty_server) as [H1 _].
  destruct (userLoggedIn_error_paths (SB := ascii_builtins) Scenario.phone_env
              Functions.alice_ctx Functions.alice_server) as [_ H2].
  destruct (H2 Functions.alice_uid eq_refl) as [_ H2'].
  destruct (H2' eq_refl) as (H2a & _).
  destruct (userLoggedIn_error_paths (SB := ascii_builtins) Scenario.phone_env
              Functions.alice_ctx Functions.empty_server) as [_ H3].
  destruct (H3 Functions.alice_uid eq_refl) as [_ H3'].
  destruct (H3' eq_refl) as (_ & H3b & _).
  split; [exact (H1 eq_refl)|]. split.
  - apply H2a. eexists. vm_compute. reflexivity.
  - apply H3b. vm_compute. reflexivity.
Defined.

Lemma generateTickets_error_paths_witness :
  Functions.generateTickets (SB := ascii_builtins) Functions.alice_env 5
    (Functions.alice_request (PNum (num_of_Z 99))) Scenario.anonymous
    Functions.alice_server
  = (Functions.Thrown Functions.unauthenticated, Functions.alice_server) /\
  (Functions.generateTickets (SB := ascii_builtins) Functions.alice_env 5
     (Functions.alice_request (PNum (num_of_Z 3))) Functions.alice_ctx
     Functions.empty_server).1 = Functions.Thrown Functions.unknown.
Proof.
  destruct (generateTickets_error_paths (SB := ascii_builtins) Functions.alice_env 5
              (Functions.alice_request (PNum (num_of_Z 99))) Scenario.anonymous
              Functions.alice_server) as [H1 _].
  destruct (generateTickets_error_paths (SB := ascii_builtins) Functions.alice_env 5
              (Functions.alice_request (PNum (num_of_Z 3))) Functions.alice_ctx
              Functions.empty_server) as [_ H2].
  destruct (H2 Functions.alice_uid eq_refl ltac:(vm_compute; reflexivity)
              ltac:(vm_compute; reflexivity)) as (H2a & _).
  split; [exact (H1 eq_refl)|]. exact (f_equal fst H2a).
Defined.

Lemma generateTickets_writes_amount_rounded_up_witness :
  let r := Functions.generateTickets (SB := ascii_builtins) Functions.alice_env 5
             (Functions.alice_request (PNum (Fin (5 # 2))))
             Functions.alice_ctx Functions.alice_server in
  exists codes,
    Functions.written_codes (Functions.trace r.2) = codes /\ length codes = 3.
Proof.
  intros r.
  assert (exists t, r.1 = Functions.Returned t) as [t Ht]
    by (vm_compute; eexists; reflexivity).
  destruct (generateTickets_writes_amount_rounded_up (SB := ascii_builtins)
              Functions.alice_env 5 (Functions.alice_request (PNum (Fin (5 # 2))))
              Functions.alice_ctx Functions.alice_server (5 # 2) t eq_refl Ht)
    as (codes & H1 & H2 & _).
  exists codes. split; [exact H1|].
  change (Qceiling (5 # 2)) with 3%Z in H2. lia.
Defined.

Lemma generateTickets_issues_distinct_new_codes_witness :
  let r := Functions.generateTickets (SB := ascii_builtins) Functions.alice_env 5
             (Functions.alice_request (PNum (num_of_Z 3)))
             Functions.alice_ctx Functions.alice_server in
  exists t codes,
    r.1 = Functions.Returned t /\
    Functions.written_codes (Functions.trace r.2) = codes /\
    NoDup codes /\ size t = length codes.
Proof.
  intros r.
  assert (exists t, r.1 = Functions.Returned t) as [t Ht]
    by (vm_compute; eexists; reflexivity).
  destruct (generateTickets_issues_distinct_new_codes (SB := ascii_builtins)
              Functions.alice_env 5 (Functions.alice_request (PNum (num_of_Z 3)))
              Functions.alice_ctx Functions.alice_server t
              ltac:(intros k; simpl; lia) ltac:(simpl; lia) Ht)
    as (codes & H1 & H2 & _ & _ & H3).
  exists t, codes. exact (conj Ht (conj H1 (conj H2 H3))).
Defined.



Lemma addNewPrize_NaN_quantity_passes_witness :
  exists p,
    (Prizes.addNewPrize (NB := Prizes.integer_builtins) Prizes.first_key
       (Prizes.mug PUndefined) Functions.alice_ctx Prizes.empty_store).1
    = Functions.Returned p /\
    Prizes.prizeMetaData p !! "quantity" = Some (VNum NaN).
Proof.
  destruct (addNewPrize_NaN_quantity_passes (NB := Prizes.integer_builtins)
              Prizes.first_key (Prizes.mug PUndefined) Functions.alice_ctx
              Prizes.empty_store Functions.alice_uid eq_refl eq_refl)
    as (p & H1 & _ & H2).
  exists p. exact (conj H1 H2).
Defined.

Lemma addNewPrize_writes_pair_under_one_key_witness :
  let r := Prizes.addNewPrize (NB := Prizes.integer_builtins) Prizes.first_key
             (Prizes.mug (PNum (num_of_Z 5))) Functions.alice_ctx Prizes.empty_store in
  exists p,
    r.1 = Functions.Returned p /\
    Prizes.id p = js "prize-1" /\
    Prizes.prize_info r.2 = ∅ /\
    Prizes.prize_info (Prizes.land 1 r.2) !! js "prize-1" = Some (Prizes.prizeInfoData p).
Proof.
  intros r.
  assert (exists p, r.1 = Functions.Returned p) as [p Hp]
    by (vm_compute; eexists; reflexivity).
  destruct (addNewPrize_writes_pair_under_one_key (NB := Prizes.integer_builtins)
              Prizes.first_key (Prizes.mug (PNum (num_of_Z 5))) Functions.alice_ctx
              Prizes.empty_store p Hp) as (H1 & _ & _ & _ & H2 & _ & H3 & _).
  exists p. split; [exact Hp|]. split; [exact H1|]. split; [exact H2|].
  rewrite H1 in H3. exact H3.
Defined.

Lemma addNewPrize_then_listing_witness :
  let r := Prizes.addNewPrize (NB := Prizes.integer_builtins) Prizes.first_key
             (Prizes.mug (PNum (num_of_Z 5))) Functions.alice_ctx Prizes.empty_store in
  (Session.getPrizesGeneratedByUser (Prizes.client_view ∅ ∅ r.2) Functions.alice_uid
     Session.initial_session).1 = Session.Rejected /\
  exists listed,
    (Session.getPrizesGeneratedByUser (Prizes.client_view ∅ ∅ (Prizes.land 1 r.2))
       Functions.alice_uid Session.initial_session).1 = Session.Resolved listed.
Proof.
  intros r.
  assert (exists p, r.1 = Functions.Returned p) as [p Hp]
    by (vm_compute; eexists; reflexivity).
  destruct (addNewPrize_then_listing (NB := Prizes.integer_builtins) Prizes.first_key
              (Prizes.mug (PNum (num_of_Z 5))) Functions.alice_ctx Prizes.empty_store
              p Functions.alice_uid ∅ ∅ Session.initial_session eq_refl eq_refl Hp)
    as [H1 H2].
  split; [apply H1; reflexivity|].
  destruct H2 as (listed & i & l & o & H & _).
  - intros k d Hk _.
    destruct (decide (k = js "prize-1")) as [->|N]; [by eexists|].
    simpl in Hk. rewrite lookup_insert_ne in Hk by done. discriminate Hk.
  - exists listed. exact H.
Defined.
